(** * btcwire: message framing (message.go) and the version message
    (msgversion.go)

    A shallow embedding of [ReadMessage], [WriteMessage], [discardInput],
    [makeEmptyMessage] and of the [MsgVersion] codec, with the properties the
    specification states about them. *)

From Stdlib Require Import ZArith List String Ascii Bool Lia.
From coqutil Require Import Byte Word.LittleEndianList.
Import ListNotations.
Local Open Scope Z_scope.

(** ** Go machine integers

    Go's fixed-width integers are integers of [Z]; a conversion wraps. *)

Definition uint8 (z : Z) : Z := z mod 2 ^ 8.
Definition uint16 (z : Z) : Z := z mod 2 ^ 16.
Definition uint32 (z : Z) : Z := z mod 2 ^ 32.
Definition uint64 (z : Z) : Z := z mod 2 ^ 64.
Definition int32 (z : Z) : Z := (z + 2 ^ 31) mod 2 ^ 32 - 2 ^ 31.
Definition int64 (z : Z) : Z := (z + 2 ^ 63) mod 2 ^ 64 - 2 ^ 63.

Definition is_uint16 (z : Z) : Prop := 0 <= z < 2 ^ 16.
Definition is_uint32 (z : Z) : Prop := 0 <= z < 2 ^ 32.
Definition is_uint64 (z : Z) : Prop := 0 <= z < 2 ^ 64.
Definition is_int32 (z : Z) : Prop := - 2 ^ 31 <= z < 2 ^ 31.
Definition is_int64 (z : Z) : Prop := - 2 ^ 63 <= z < 2 ^ 63.

(** [len(s)] of a Go string or slice. *)
Definition len {A} (l : list A) : Z := Z.of_nat (List.length l).
Definition strlen (s : string) : Z := Z.of_nat (String.length s).

(** A Go string is a sequence of bytes: [[]byte(s)] and [string(b)]. *)
Definition bytes_of (s : string) : list byte := list_byte_of_string s.
Definition string_of (b : list byte) : string := string_of_list_byte b.

(** ** Errors *)

(** The text of an error message.  The source builds it with [fmt.Sprintf];
    the embedding keeps the format (one constructor for each) and the values
    that are printed into it. *)
Inductive Description : Type :=
| DescCommandTooLong (cmd : string) (max : Z)
| DescEncodedTooLarge (lenp : Z) (max : Z)
| DescEncodedTooLargeForType (lenp : Z) (cmd : string) (mpl : Z)
| DescHeaderTooLarge (length : Z) (max : Z)
| DescOtherNetwork (magic : Z)
| DescInvalidCommand (cmd : list byte)
| DescUnhandledCommand (cmd : string)
| DescExceedsMaxLength (length : Z) (cmd : string) (mpl : Z)
| DescChecksumFailed (expected actual : list byte)
| DescUserAgentTooLong (length : Z) (max : Z)
| DescText (text : string)
| DescFunc (func : string) (d : Description).

Inductive error : Type :=
| EOF                                         (* io.EOF *)
| ErrUnexpectedEOF                            (* io.ErrUnexpectedEOF *)
| ErrShortWrite                               (* io.ErrShortWrite *)
| ErrorString (d : Description)               (* fmt.Errorf(...) *)
| MessageError (func : string) (d : Description) (* messageError(f, desc) *)
| ForeignError (what : string).               (* an error of a codec declared elsewhere *)

Definition messageError (f : string) (desc : Description) : error :=
  MessageError f desc.

(** [err.Error()]: the text of the error. *)
Definition Error (e : error) : Description :=
  match e with
  | EOF => DescText "EOF"
  | ErrUnexpectedEOF => DescText "unexpected EOF"
  | ErrShortWrite => DescText "short write"
  | ErrorString d => d
  | MessageError f d => DescFunc f d
  | ForeignError what => DescText what
  end.

(** ** A state and error monad

    A Go function that takes a stream and returns [(value, error)] is a
    function from the state of the stream to the new state and either the
    error or the value. *)

Definition io (S A : Type) : Type := S -> S * (error + A).

Definition ret {S A} (a : A) : io S A := fun s => (s, inr a).
Definition fail {S A} (e : error) : io S A := fun s => (s, inl e).
Definition bind {S A B} (c : io S A) (k : A -> io S B) : io S B :=
  fun s => match c s with
           | (s', inl e) => (s', inl e)
           | (s', inr a) => k a s'
           end.

Notation "x <- c ;; k" := (bind c (fun x => k))
  (at level 61, c at next level, right associativity).
Notation "c ;;; k" := (bind c (fun _ => k))
  (at level 61, right associativity).

(** ** io.Reader

    The stream as its reader sees it: the bytes the peer still delivers,
    and two logs, the sizes of the [io.ReadFull] requests made on the stream
    and the sizes of the buffers [make] allocated to serve it. *)

Record Reader : Type := mkReader {
  input : list byte;
  reads : list Z;
  allocs : list Z
}.

(** [bytes.NewBuffer(b)], read from. *)
Definition NewBuffer (b : list byte) : Reader :=
  {| input := b; reads := []; allocs := [] |}.

(** [make([]byte, n)] *)
Definition make (n : Z) : io Reader unit :=
  fun r => ({| input := input r; reads := reads r; allocs := allocs r ++ [n] |},
            inr tt).

(** [io.ReadFull(r, buf)] with [len(buf) = n].  An empty buffer asks the
    stream for nothing.  A stream that ends early gives what it has and
    [io.ErrUnexpectedEOF], or [io.EOF] if it had nothing. *)
Definition ReadFull (n : Z) : io Reader (list byte) :=
  fun r =>
    if n <=? 0 then (r, inr [])
    else
      let k := Z.to_nat n in
      let r' := {| input := skipn k (input r);
                   reads := reads r ++ [n];
                   allocs := allocs r |} in
      if (k <=? List.length (input r))%nat
      then (r', inr (firstn k (input r)))
      else (r', inl (match input r with [] => EOF | _ => ErrUnexpectedEOF end)).

(** ** io.Writer

    A sink: the bytes written so far and the room that is left ([None] for a
    [bytes.Buffer], which grows).  A [Write] that does not fit writes what
    fits and returns [io.ErrShortWrite]. *)

Record Writer : Type := mkWriter {
  output : list byte;
  room : option nat
}.

(** [var bw bytes.Buffer] *)
Definition emptyBuffer : Writer := {| output := []; room := None |}.

Definition Write (p : list byte) : io Writer unit :=
  fun w =>
    match room w with
    | None => ({| output := output w ++ p; room := None |}, inr tt)
    | Some c =>
        if (List.length p <=? c)%nat
        then ({| output := output w ++ p;
                 room := Some (c - List.length p)%nat |}, inr tt)
        else ({| output := output w ++ firstn c p; room := Some 0%nat |},
              inl ErrShortWrite)
    end.

(** ** The primitive codec (readElement, writeElement, readVarInt, ...) *)

(** Modelled from the spec: [readElement] and [writeElement] for the
    fixed-width integers and byte arrays are not in the two files.  The spec
    gives each field its width (4 bytes for the protocol version, the network
    id and the length, 8 for the services, the timestamp and the nonce) in
    "the protocol's fixed byte order", which for these fields is little
    endian; every element is one read or one write of its width.
    [readElements] and [writeElements] are these, one element after the
    other.  Here [readElement] into a [uint32]. *)
Definition readUint32 : io Reader Z :=
  b <- ReadFull 4 ;; ret (le_combine b).

(** Modelled from the spec: [readElement] into an [int32] ("4 bytes,
    signed"). *)
Definition readInt32 : io Reader Z :=
  b <- ReadFull 4 ;; ret (int32 (le_combine b)).

(** Modelled from the spec: [readElement] into a [uint64] ("8 bytes"). *)
Definition readUint64 : io Reader Z :=
  b <- ReadFull 8 ;; ret (le_combine b).

(** Modelled from the spec: [readElement] into an [int64] ("8 bytes,
    signed"). *)
Definition readInt64 : io Reader Z :=
  b <- ReadFull 8 ;; ret (int64 (le_combine b)).

(** Modelled from the spec: [readElement] into an array of [n] bytes. *)
Definition readBytes (n : Z) : io Reader (list byte) := ReadFull n.

(** Modelled from the spec: [writeElement] of a [uint32]. *)
Definition writeUint32 (v : Z) : io Writer unit := Write (le_split 4 v).

(** Modelled from the spec: [writeElement] of an [int32]. *)
Definition writeInt32 (v : Z) : io Writer unit := Write (le_split 4 v).

(** Modelled from the spec: [writeElement] of a [uint64]. *)
Definition writeUint64 (v : Z) : io Writer unit := Write (le_split 8 v).

(** Modelled from the spec: [writeElement] of an [int64]. *)
Definition writeInt64 (v : Z) : io Writer unit := Write (le_split 8 v).

(** Modelled from the spec: [writeElement] of an array of bytes. *)
Definition writeBytes (b : list byte) : io Writer unit := Write b.

(** Modelled from the spec: [maxVarIntPayload], the "maximum possible
    length-prefix overhead": the longest variable-length integer is one
    discriminant byte and an 8-byte integer. *)
Definition maxVarIntPayload : Z := 9.

(** Modelled from the spec: [readVarInt], the "variable-length integer" of
    the primitive codec: a value below 253 is one byte; else the byte 253,
    254 or 255 announces an integer of 2, 4 or 8 bytes. *)
Definition readVarInt (pver : Z) : io Reader Z :=
  b <- ReadFull 1 ;;
  let discriminant := le_combine b in
  if discriminant =? 255 then b8 <- ReadFull 8 ;; ret (le_combine b8)
  else if discriminant =? 254 then b4 <- ReadFull 4 ;; ret (le_combine b4)
  else if discriminant =? 253 then b2 <- ReadFull 2 ;; ret (le_combine b2)
  else ret discriminant.

(** Modelled from the spec: the bytes of a variable-length integer, in its
    shortest form. *)
Definition varIntBytes (val : Z) : list byte :=
  if val <? 253 then [byte.of_Z val]
  else if val <=? 65535 then byte.of_Z 253 :: le_split 2 val
  else if val <=? 4294967295 then byte.of_Z 254 :: le_split 4 val
  else byte.of_Z 255 :: le_split 8 val.

(** Modelled from the spec: [writeVarInt]. *)
Definition writeVarInt (pver : Z) (val : Z) : io Writer unit :=
  Write (varIntBytes val).

(** Modelled from the spec: [readVarString], the "length-prefixed string"
    of the primitive codec: the length as a variable-length integer, then a
    buffer of that length, read in full. *)
Definition readVarString (pver : Z) : io Reader string :=
  slen <- readVarInt pver ;;
  make slen ;;;
  buf <- ReadFull slen ;;
  ret (string_of buf).

(** Modelled from the spec: [writeVarString]: the length, then the bytes. *)
Definition writeVarString (pver : Z) (str : string) : io Writer unit :=
  writeVarInt pver (uint64 (strlen str)) ;;;
  Write (bytes_of str).

(** ** time.Time

    The instant as seconds since the epoch and the nanoseconds within the
    second.  [t.Unix()] drops the nanoseconds; [time.Unix(sec, 0)] has none. *)

Record Time : Type := mkTime { unixSec : Z; nanos : Z }.

Definition Time_Unix (t : Time) : Z := unixSec t.
Definition time_Unix (sec nsec : Z) : Time :=
  {| unixSec := int64 (sec + nsec / 1000000000); nanos := nsec mod 1000000000 |}.

(** The zero value of [time.Time], January 1 of the year 1, 00:00:00 UTC:
    its [Unix()] is the number of seconds from there to the epoch, negated. *)
Definition zeroTime : Time := mkTime (-62135596800) 0.

(** ** The Message interface *)

Class Message (T : Type) : Type := {
  BtcDecode : T -> Reader -> Z -> Reader * T * option error;
  BtcEncode : T -> Writer -> Z -> Writer * (error + unit);
  Command : T -> string;
  MaxPayloadLength : T -> Z -> Z
}.

(** A value of interface type [Message]: a concrete type that implements
    the interface, and a value of it. *)
Record AnyMessage : Type := asMessage {
  concrete : Type;
  methods : Message concrete;
  value : concrete
}.
Arguments asMessage {concrete methods} value.

(** ** Constants of message.go *)

Definition commandSize : Z := 12.
Definition maxMessagePayload : Z := 1024 * 1024 * 32.

Definition cmdVersion : string := "version".
Definition cmdVerAck : string := "verack".
Definition cmdGetAddr : string := "getaddr".
Definition cmdAddr : string := "addr".
Definition cmdGetBlocks : string := "getblocks".
Definition cmdInv : string := "inv".
Definition cmdGetData : string := "getdata".
Definition cmdNotFound : string := "notfound".
Definition cmdBlock : string := "block".
Definition cmdTx : string := "tx".
Definition cmdGetHeaders : string := "getheaders".
Definition cmdHeaders : string := "headers".
Definition cmdPing : string := "ping".
Definition cmdPong : string := "pong".
Definition cmdAlert : string := "alert".
Definition cmdMemPool : string := "mempool".

(** The commands [makeEmptyMessage] knows. *)
Definition knownCommands : list string :=
  [cmdVersion; cmdVerAck; cmdGetAddr; cmdAddr; cmdGetBlocks; cmdBlock;
   cmdInv; cmdGetData; cmdNotFound; cmdTx; cmdPing; cmdPong; cmdGetHeaders;
   cmdHeaders; cmdAlert; cmdMemPool].

(** ** The message header *)

Record messageHeader : Type := mkHeader {
  magic : Z;               (* BitcoinNet, 4 bytes *)
  command : string;        (* 12 bytes *)
  length : Z;              (* uint32, 4 bytes *)
  checksum : list byte     (* [4]byte *)
}.

(** [bytes.TrimRight(b, string(0))]: the bytes without the zero bytes at the
    end. *)
Fixpoint TrimRight0 (b : list byte) : list byte :=
  match b with
  | [] => []
  | x :: t =>
      match TrimRight0 t with
      | [] => if Byte.eqb x Byte.x00 then [] else [x]
      | t' => x :: t'
      end
  end.

Definition readMessageHeader : io Reader messageHeader :=
  m <- readUint32 ;;
  command <- readBytes commandSize ;;
  l <- readUint32 ;;
  c <- readBytes 4 ;;
  ret {| magic := m;
         command := string_of (TrimRight0 command);
         length := l;
         checksum := c |}.

(** ** discardInput *)

(** The loop [for i := uint32(0); i < numReads; i++ { io.ReadFull(r, buf) }]:
    the result of each read, also an error, is dropped. *)
Fixpoint readChunks (numReads : nat) (maxSize : Z) (r : Reader) : Reader :=
  match numReads with
  | O => r
  | S k => readChunks k maxSize (fst (ReadFull maxSize r))
  end.

Definition discardInput (r : Reader) (n : Z) : Reader :=
  let maxSize := uint32 (10 * 1024) in
  let numReads := n / maxSize in
  let bytesRemaining := n mod maxSize in
  let r :=
    if 0 <? n then
      let r := fst (make maxSize r) in
      readChunks (Z.to_nat numReads) maxSize r
    else r in
  if 0 <? bytesRemaining then
    let r := fst (make bytesRemaining r) in
    fst (ReadFull bytesRemaining r)
  else r.

(** ** unicode/utf8

    [utf8.ValidString]: the bytes are a sequence of well-formed UTF-8
    encodings (no overlong form, no surrogate, nothing above U+10FFFF). *)

Definition inRange (lo hi b : Z) : bool := (lo <=? b) && (b <=? hi).

Fixpoint utf8_Valid (b : list Z) : bool :=
  match b with
  | [] => true
  | b0 :: t0 =>
      if b0 <? 128 then utf8_Valid t0
      else if inRange 194 223 b0 then
        match t0 with
        | b1 :: t1 => inRange 128 191 b1 && utf8_Valid t1
        | _ => false
        end
      else if inRange 224 239 b0 then
        match t0 with
        | b1 :: b2 :: t2 =>
            inRange (if b0 =? 224 then 160 else 128)
                    (if b0 =? 237 then 159 else 191) b1
            && inRange 128 191 b2 && utf8_Valid t2
        | _ => false
        end
      else if inRange 240 244 b0 then
        match t0 with
        | b1 :: b2 :: b3 :: t3 =>
            inRange (if b0 =? 240 then 144 else 128)
                    (if b0 =? 244 then 143 else 191) b1
            && inRange 128 191 b2 && inRange 128 191 b3 && utf8_Valid t3
        | _ => false
        end
      else false
  end.

Definition utf8_ValidString (s : string) : bool :=
  utf8_Valid (map byte.unsigned (bytes_of s)).

(** [bytes.Equal] *)
Fixpoint bytes_Equal (a b : list byte) : bool :=
  match a, b with
  | [], [] => true
  | x :: a', y :: b' => Byte.eqb x y && bytes_Equal a' b'
  | _, _ => false
  end.

(** [copy(dst[:], src)] into a zeroed array of [n] bytes. *)
Definition copyInto (n : nat) (src : list byte) : list byte :=
  firstn n src ++ repeat Byte.x00 (n - List.length src).

(** ** msgversion.go *)

Definition MaxUserAgentLen : Z := 2000.

(** ** What the two files use from the rest of the package

    The network address record with its codec, the double hash, and the
    other fifteen message types are declared in files of the package that
    are not these two; they are the fields of [Package], and everything below
    is relative to one.  [readNetAddress] fills the record it is given a
    pointer to, so it takes the old record and returns the new one.  The
    last fifteen fields are [&MsgVerAck{}], [&MsgGetAddr{}], ...: the empty
    messages of the other types. *)

Class Package : Type := {
  NetAddress : Type;
  zeroNetAddress : NetAddress;
  readNetAddress :
    Reader -> Z -> NetAddress -> bool -> Reader * NetAddress * option error;
  writeNetAddress :
    Writer -> Z -> NetAddress -> bool -> Writer * (error + unit);
  maxNetAddressPayload : Z -> Z;
  DoubleSha256 : list byte -> list byte;
  emptyMsgVerAck : AnyMessage;
  emptyMsgGetAddr : AnyMessage;
  emptyMsgAddr : AnyMessage;
  emptyMsgGetBlocks : AnyMessage;
  emptyMsgBlock : AnyMessage;
  emptyMsgInv : AnyMessage;
  emptyMsgGetData : AnyMessage;
  emptyMsgNotFound : AnyMessage;
  emptyMsgTx : AnyMessage;
  emptyMsgPing : AnyMessage;
  emptyMsgPong : AnyMessage;
  emptyMsgGetHeaders : AnyMessage;
  emptyMsgHeaders : AnyMessage;
  emptyMsgAlert : AnyMessage;
  emptyMsgMemPool : AnyMessage
}.

Section Wire.

Context {pkg : Package}.

(** *** MsgVersion *)

Record MsgVersion : Type := mkMsgVersion {
  ProtocolVersion : Z;     (* int32 *)
  Services : Z;            (* ServiceFlag, uint64 *)
  Timestamp : Time;
  AddrYou : NetAddress;
  AddrMe : NetAddress;
  Nonce : Z;               (* uint64 *)
  UserAgent : string;
  LastBlock : Z            (* int32 *)
}.

(** Assignments to one field. *)
Definition set_ProtocolVersion (v : Z) (m : MsgVersion) : MsgVersion :=
  mkMsgVersion v (Services m) (Timestamp m) (AddrYou m) (AddrMe m) (Nonce m)
               (UserAgent m) (LastBlock m).
Definition set_Services (v : Z) (m : MsgVersion) : MsgVersion :=
  mkMsgVersion (ProtocolVersion m) v (Timestamp m) (AddrYou m) (AddrMe m)
               (Nonce m) (UserAgent m) (LastBlock m).
Definition set_Timestamp (v : Time) (m : MsgVersion) : MsgVersion :=
  mkMsgVersion (ProtocolVersion m) (Services m) v (AddrYou m) (AddrMe m)
               (Nonce m) (UserAgent m) (LastBlock m).
Definition set_AddrYou (v : NetAddress) (m : MsgVersion) : MsgVersion :=
  mkMsgVersion (ProtocolVersion m) (Services m) (Timestamp m) v (AddrMe m)
               (Nonce m) (UserAgent m) (LastBlock m).
Definition set_AddrMe (v : NetAddress) (m : MsgVersion) : MsgVersion :=
  mkMsgVersion (ProtocolVersion m) (Services m) (Timestamp m) (AddrYou m) v
               (Nonce m) (UserAgent m) (LastBlock m).
Definition set_Nonce (v : Z) (m : MsgVersion) : MsgVersion :=
  mkMsgVersion (ProtocolVersion m) (Services m) (Timestamp m) (AddrYou m)
               (AddrMe m) v (UserAgent m) (LastBlock m).
Definition set_UserAgent (v : string) (m : MsgVersion) : MsgVersion :=
  mkMsgVersion (ProtocolVersion m) (Services m) (Timestamp m) (AddrYou m)
               (AddrMe m) (Nonce m) v (LastBlock m).
Definition set_LastBlock (v : Z) (m : MsgVersion) : MsgVersion :=
  mkMsgVersion (ProtocolVersion m) (Services m) (Timestamp m) (AddrYou m)
               (AddrMe m) (Nonce m) (UserAgent m) v.

(** [&MsgVersion{}]: every field has the zero value of its type. *)
Definition emptyMsgVersion : MsgVersion :=
  mkMsgVersion 0 0 zeroTime zeroNetAddress zeroNetAddress 0 "" 0.

Definition HasService (msg : MsgVersion) (service : Z) : bool :=
  if Z.land (Services msg) service =? service then true else false.

Definition AddService (msg : MsgVersion) (service : Z) : MsgVersion :=
  set_Services (Z.lor (Services msg) service) msg.

(** Decoding works on the stream and on the message it fills: a read that
    succeeds is stored at once, so an error leaves the fields read before
    it in the message. *)
Definition onReader {T A} (c : io Reader A) : io (Reader * T) A :=
  fun s => let '(r', x) := c (fst s) in ((r', snd s), x).

Definition store {T} (f : T -> T) : io (Reader * T) unit :=
  fun s => ((fst s, f (snd s)), inr tt).

Definition readNetAddressInto (pver : Z) (field : MsgVersion -> NetAddress)
    (assign : NetAddress -> MsgVersion -> MsgVersion) (ts : bool)
  : io (Reader * MsgVersion) unit :=
  fun s =>
    let '(r', na, err) := readNetAddress (fst s) pver (field (snd s)) ts in
    ((r', assign na (snd s)),
     match err with Some e => inl e | None => inr tt end).

Definition MsgVersion_decode (pver : Z) : io (Reader * MsgVersion) unit :=
  v <- onReader readInt32 ;;
  store (set_ProtocolVersion v) ;;;
  s <- onReader readUint64 ;;
  store (set_Services s) ;;;
  sec <- onReader readInt64 ;;
  store (set_Timestamp (time_Unix sec 0)) ;;;
  readNetAddressInto pver AddrYou set_AddrYou false ;;;
  readNetAddressInto pver AddrMe set_AddrMe false ;;;
  n <- onReader readUint64 ;;
  store (set_Nonce n) ;;;
  userAgent <- onReader (readVarString pver) ;;
  if MaxUserAgentLen <? strlen userAgent then
    fail (messageError "MsgVersion.BtcDecode"
            (DescUserAgentTooLong (strlen userAgent) MaxUserAgentLen))
  else
    store (set_UserAgent userAgent) ;;;
    l <- onReader readInt32 ;;
    store (set_LastBlock l).

Definition MsgVersion_BtcDecode (msg : MsgVersion) (r : Reader) (pver : Z)
  : Reader * MsgVersion * option error :=
  let '(s, res) := MsgVersion_decode pver (r, msg) in
  (fst s, snd s, match res with inl e => Some e | inr _ => None end).

Definition MsgVersion_BtcEncode (msg : MsgVersion) (w : Writer) (pver : Z)
  : Writer * (error + unit) :=
  if MaxUserAgentLen <? strlen (UserAgent msg) then
    (w, inl (messageError "MsgVersion.BtcEncode"
               (DescUserAgentTooLong (strlen (UserAgent msg)) MaxUserAgentLen)))
  else
    (writeInt32 (ProtocolVersion msg) ;;;
     writeUint64 (Services msg) ;;;
     writeInt64 (Time_Unix (Timestamp msg)) ;;;
     (fun w => writeNetAddress w pver (AddrYou msg) false) ;;;
     (fun w => writeNetAddress w pver (AddrMe msg) false) ;;;
     writeUint64 (Nonce msg) ;;;
     writeVarString pver (UserAgent msg) ;;;
     writeInt32 (LastBlock msg)) w.

Definition MsgVersion_Command (msg : MsgVersion) : string := cmdVersion.

Definition MsgVersion_MaxPayloadLength (msg : MsgVersion) (pver : Z) : Z :=
  uint32 (uint32 (uint32 (32 + uint32 (maxNetAddressPayload pver * 2))
                  + maxVarIntPayload)
          + MaxUserAgentLen).

#[export] Instance MsgVersion_Message : Message MsgVersion := {
  BtcDecode := MsgVersion_BtcDecode;
  BtcEncode := MsgVersion_BtcEncode;
  Command := MsgVersion_Command;
  MaxPayloadLength := MsgVersion_MaxPayloadLength
}.

(** *** message.go *)

(** The [switch] of the source, case by case in its order. *)
Definition makeEmptyMessage (command : string) : error + AnyMessage :=
  if String.eqb command cmdVersion then inr (asMessage emptyMsgVersion)
  else if String.eqb command cmdVerAck then inr emptyMsgVerAck
  else if String.eqb command cmdGetAddr then inr emptyMsgGetAddr
  else if String.eqb command cmdAddr then inr emptyMsgAddr
  else if String.eqb command cmdGetBlocks then inr emptyMsgGetBlocks
  else if String.eqb command cmdBlock then inr emptyMsgBlock
  else if String.eqb command cmdInv then inr emptyMsgInv
  else if String.eqb command cmdGetData then inr emptyMsgGetData
  else if String.eqb command cmdNotFound then inr emptyMsgNotFound
  else if String.eqb command cmdTx then inr emptyMsgTx
  else if String.eqb command cmdPing then inr emptyMsgPing
  else if String.eqb command cmdPong then inr emptyMsgPong
  else if String.eqb command cmdGetHeaders then inr emptyMsgGetHeaders
  else if String.eqb command cmdHeaders then inr emptyMsgHeaders
  else if String.eqb command cmdAlert then inr emptyMsgAlert
  else if String.eqb command cmdMemPool then inr emptyMsgMemPool
  else inl (ErrorString (DescUnhandledCommand command)).

Definition WriteMessage {T} `{Message T}
    (w : Writer) (msg : T) (pver : Z) (btcnet : Z) : Writer * (error + unit) :=
  (* Enforce max command size. *)
  let cmd := Command msg in
  if commandSize <? strlen cmd then
    (w, inl (messageError "WriteMessage" (DescCommandTooLong cmd commandSize)))
  else
    let command := copyInto (Z.to_nat commandSize) (bytes_of cmd) in
    (* Encode the message payload. *)
    match BtcEncode msg emptyBuffer pver with
    | (_, inl err) => (w, inl err)
    | (bw, inr _) =>
        let payload := output bw in
        let lenp := len payload in
        (* Enforce maximum overall message payload. *)
        if maxMessagePayload <? lenp then
          (w, inl (messageError "WriteMessage"
                     (DescEncodedTooLarge lenp maxMessagePayload)))
        else
          (* Enforce maximum message payload based on the message type. *)
          let mpl := MaxPayloadLength msg pver in
          if mpl <? uint32 lenp then
            (w, inl (messageError "WriteMessage"
                       (DescEncodedTooLargeForType lenp cmd mpl)))
          else
            (* Create header for the message. *)
            let hdr := {| magic := btcnet;
                          command := cmd;
                          length := uint32 lenp;
                          checksum := copyInto 4 (firstn 4 (DoubleSha256 payload)) |} in
            (* Write header, then payload. *)
            (writeUint32 (magic hdr) ;;;
             writeBytes command ;;;
             writeUint32 (length hdr) ;;;
             writeBytes (checksum hdr) ;;;
             Write payload) w
    end.

Definition ReadMessage (r : Reader) (pver : Z) (btcnet : Z)
  : Reader * (error + AnyMessage * list byte) :=
  match readMessageHeader r with
  | (r, inl err) => (r, inl err)
  | (r, inr hdr) =>
      (* Enforce maximum message payload. *)
      if maxMessagePayload <? length hdr then
        (r, inl (messageError "ReadMessage"
                   (DescHeaderTooLarge (length hdr) maxMessagePayload)))
      (* Check for messages from the wrong bitcoin network. *)
      else if negb (magic hdr =? btcnet) then
        let r := discardInput r (length hdr) in
        (r, inl (messageError "ReadMessage" (DescOtherNetwork (magic hdr))))
      else
        (* Check for malformed commands. *)
        let command := command hdr in
        if negb (utf8_ValidString command) then
          let r := discardInput r (length hdr) in
          (r, inl (messageError "ReadMessage"
                     (DescInvalidCommand (bytes_of command))))
        else
          (* Create struct of appropriate message type based on the command. *)
          match makeEmptyMessage command with
          | inl err =>
              let r := discardInput r (length hdr) in
              (r, inl (messageError "ReadMessage" (Error err)))
          | inr msg =>
              (* Check for maximum length based on the message type. *)
              let mpl := @MaxPayloadLength _ (methods msg) (value msg) pver in
              if mpl <? length hdr then
                let r := discardInput r (length hdr) in
                (r, inl (messageError "ReadMessage"
                           (DescExceedsMaxLength (length hdr) command mpl)))
              else
                (* Read payload. *)
                match (make (length hdr) ;;; ReadFull (length hdr)) r with
                | (r, inl err) => (r, inl err)
                | (r, inr payload) =>
                    (* Test checksum. *)
                    let checksum' := firstn 4 (DoubleSha256 payload) in
                    if negb (bytes_Equal checksum' (checksum hdr)) then
                      (r, inl (messageError "ReadMessage"
                                 (DescChecksumFailed (checksum hdr) checksum')))
                    else
                      (* Unmarshal message. *)
                      let pr := NewBuffer payload in
                      match @BtcDecode _ (methods msg) (value msg) pr pver with
                      | (_, _, Some err) => (r, inl err)
                      | (_, m, None) =>
                          (r, inr (@asMessage _ (methods msg) m, payload))
                      end
                end
          end
  end.

End Wire.

(** ** The constructor of msgversion.go *)

Section Constructors.

Context {pkg : Package}.

(** [NewMsgVersion].  The clock and the constant [ProtocolVersion] of the
    package are not in the file: [now] is what [time.Now()] returns, and
    [protocolVersion] the constant, a [uint32] that the function converts to
    [int32].  The two addresses are given by pointer and copied: the first
    argument is the local address and becomes [AddrMe]. *)
Definition NewMsgVersion (protocolVersion : Z) (now : Time)
    (me you : NetAddress) (nonce : Z) (userAgent : string) (lastBlock : Z)
  : MsgVersion :=
  {| ProtocolVersion := int32 protocolVersion;
     Services := 0;
     Timestamp := time_Unix (Time_Unix now) 0;
     AddrYou := you;
     AddrMe := me;
     Nonce := nonce;
     UserAgent := userAgent;
     LastBlock := lastBlock |}.

End Constructors.

(** ** A package to run the definitions on *)

(** Modelled from the spec: [DoubleSha256] is not in the two files.  The spec
    calls it "the cryptographic double-hash function" of the checksum; by its
    name it is SHA-256 (FIPS 180-4) of the SHA-256 of the bytes. *)
Module Sha256.

Definition add (a b : Z) : Z := (a + b) mod 2 ^ 32.
Definition rotr (n x : Z) : Z :=
  Z.lor (Z.shiftr x n) (Z.shiftl x (32 - n) mod 2 ^ 32).
Definition not32 (x : Z) : Z := Z.lxor x (2 ^ 32 - 1).

Definition Ch (x y z : Z) : Z := Z.lxor (Z.land x y) (Z.land (not32 x) z).
Definition Maj (x y z : Z) : Z :=
  Z.lxor (Z.lxor (Z.land x y) (Z.land x z)) (Z.land y z).
Definition Sigma0 (x : Z) : Z := Z.lxor (Z.lxor (rotr 2 x) (rotr 13 x)) (rotr 22 x).
Definition Sigma1 (x : Z) : Z := Z.lxor (Z.lxor (rotr 6 x) (rotr 11 x)) (rotr 25 x).
Definition sigma0 (x : Z) : Z := Z.lxor (Z.lxor (rotr 7 x) (rotr 18 x)) (Z.shiftr x 3).
Definition sigma1 (x : Z) : Z := Z.lxor (Z.lxor (rotr 17 x) (rotr 19 x)) (Z.shiftr x 10).

(** The constants of the standard: the first 32 bits of the fractional
    parts of the cube roots of the first 64 primes, and of the square roots
    of the first 8. *)
Definition isPrime (n : nat) : bool :=
  forallb (fun d => negb (n mod d =? 0)%nat) (seq 2 (n - 2)).

Definition primes : list Z :=
  map Z.of_nat (filter isPrime (seq 2 310)).

(** The largest [c] below [2 ^ bits] with [c ^ 3 <= n], above [acc]. *)
Fixpoint cubeRoot (bits : nat) (n acc : Z) : Z :=
  match bits with
  | O => acc
  | S k =>
      let c := acc + 2 ^ Z.of_nat k in
      if c * c * c <=? n then cubeRoot k n c else cubeRoot k n acc
  end.

Definition K : list Z :=
  Eval vm_compute in
    map (fun p => cubeRoot 40 (p * 2 ^ 96) 0 mod 2 ^ 32) primes.

Definition H0 : list Z :=
  Eval vm_compute in
    map (fun p => Z.sqrt (p * 2 ^ 64) mod 2 ^ 32) (firstn 8 primes).

(** Big-endian words and bytes. *)
Definition word_of (b : list byte) : Z := le_combine (rev b).
Definition bytes_of_word (n : nat) (w : Z) : list byte := rev (le_split n w).

Fixpoint words (n : nat) (b : list byte) : list Z :=
  match n with
  | O => []
  | S k => word_of (firstn 4 b) :: words k (skipn 4 b)
  end.

(** The message schedule: [w] holds the last sixteen words, oldest first. *)
Fixpoint schedule (n : nat) (w : list Z) : list Z :=
  match n, w with
  | S k, w16 :: t =>
      let wt := add (add (sigma1 (nth 13 t 0)) (nth 8 t 0))
                    (add (sigma0 (nth 0 t 0)) w16) in
      wt :: schedule k (t ++ [wt])
  | _, _ => []
  end.

Definition round (s : list Z) (kw : Z * Z) : list Z :=
  match s with
  | [a; b; c; d; e; f; g; h] =>
      let t1 := add (add (add h (Sigma1 e)) (add (Ch e f g) (fst kw))) (snd kw) in
      let t2 := add (Sigma0 a) (Maj a b c) in
      [add t1 t2; a; b; c; add d t1; e; f; g]
  | _ => s
  end.

Definition compress (h : list Z) (block : list byte) : list Z :=
  let w16 := words 16 block in
  let w := w16 ++ schedule 48 w16 in
  map (fun p => add (fst p) (snd p))
      (combine h (fold_left round (combine K w) h)).

Definition pad (b : list byte) : list byte :=
  let l := Z.of_nat (List.length b) in
  let zeros := Z.to_nat ((55 - l) mod 64) in
  b ++ [byte.of_Z 128] ++ repeat Byte.x00 zeros ++ bytes_of_word 8 (8 * l).

Fixpoint blocks (n : nat) (h : list Z) (b : list byte) : list Z :=
  match n with
  | O => h
  | S k => blocks k (compress h (firstn 64 b)) (skipn 64 b)
  end.

Definition Sum256 (b : list byte) : list byte :=
  let p := pad b in
  flat_map (bytes_of_word 4) (blocks (List.length p / 64) H0 p).

Definition DoubleSha256 (b : list byte) : list byte := Sum256 (Sum256 b).

End Sha256.

(** The digest in hexadecimal, to compare with published values. *)
Definition hex (b : list byte) : string :=
  let digit (n : Z) :=
    match nth_error (list_ascii_of_string "0123456789abcdef") (Z.to_nat n) with
    | Some c => c
    | None => "?"%char
    end in
  fold_right (fun x s => String (digit (byte.unsigned x / 16))
                           (String (digit (byte.unsigned x mod 16)) s))
             EmptyString b.

(** Modelled from the spec: the address record, its codec and the other
    message types are not in the two files, and the spec leaves them to the
    rest of the package.  This package is one to run the definitions on: an
    address record with "its own service bitset", 16 bytes of address and the
    port in network byte order (after the time of last contact when the
    caller asks for it and the protocol version has it), a maximum of 26 or
    30 bytes for it, and messages that carry their payload as it is.  The
    theorems hold for every package. *)
Module Reference.

Definition NetAddressTimeVersion : Z := 31402.

Record NetAddr : Type := mkNetAddr {
  naTimestamp : Time;
  naServices : Z;
  naIP : list byte;
  naPort : Z
}.

Definition zeroNetAddr : NetAddr := mkNetAddr (mkTime 0 0) 0 [] 0.

Definition maxPayload (pver : Z) : Z :=
  if NetAddressTimeVersion <=? pver then 30 else 26.

Definition write (w : Writer) (pver : Z) (na : NetAddr) (ts : bool)
  : Writer * (error + unit) :=
  ((if ts && (NetAddressTimeVersion <=? pver)
    then writeUint32 (uint32 (Time_Unix (naTimestamp na)))
    else ret tt) ;;;
   writeUint64 (naServices na) ;;;
   writeBytes (copyInto 16 (naIP na)) ;;;
   Write (rev (le_split 2 (naPort na)))) w.

Definition read (r : Reader) (pver : Z) (na : NetAddr) (ts : bool)
  : Reader * NetAddr * option error :=
  let c : io Reader NetAddr :=
    timestamp <- (if ts && (NetAddressTimeVersion <=? pver)
                  then stamp <- readUint32 ;; ret (time_Unix stamp 0)
                  else ret (mkTime 0 0)) ;;
    services <- readUint64 ;;
    ip <- readBytes 16 ;;
    port <- ReadFull 2 ;;
    ret (mkNetAddr timestamp services ip (le_combine (rev port))) in
  match c r with
  | (r', inl e) => (r', na, Some e)
  | (r', inr na') => (r', na', None)
  end.

(** A message that is its payload. *)
Record Blob : Type := mkBlob {
  blobCommand : string;
  blobMax : Z;
  blobData : list byte
}.

#[export] Instance Blob_Message : Message Blob := {
  BtcDecode b r pver :=
    (fst (ReadFull (len (input r)) r),
     mkBlob (blobCommand b) (blobMax b) (input r), None);
  BtcEncode b w pver := Write (blobData b) w;
  Command b := blobCommand b;
  MaxPayloadLength b pver := blobMax b
}.

Definition empty (cmd : string) (max : Z) : AnyMessage :=
  asMessage (mkBlob cmd max []).

Definition package : Package := {|
  NetAddress := NetAddr;
  zeroNetAddress := zeroNetAddr;
  readNetAddress := read;
  writeNetAddress := write;
  maxNetAddressPayload := maxPayload;
  DoubleSha256 := Sha256.DoubleSha256;
  emptyMsgVerAck := empty cmdVerAck 0;
  emptyMsgGetAddr := empty cmdGetAddr 0;
  emptyMsgAddr := empty cmdAddr maxMessagePayload;
  emptyMsgGetBlocks := empty cmdGetBlocks maxMessagePayload;
  emptyMsgBlock := empty cmdBlock maxMessagePayload;
  emptyMsgInv := empty cmdInv maxMessagePayload;
  emptyMsgGetData := empty cmdGetData maxMessagePayload;
  emptyMsgNotFound := empty cmdNotFound maxMessagePayload;
  emptyMsgTx := empty cmdTx maxMessagePayload;
  emptyMsgPing := empty cmdPing 8;
  emptyMsgPong := empty cmdPong 8;
  emptyMsgGetHeaders := empty cmdGetHeaders maxMessagePayload;
  emptyMsgHeaders := empty cmdHeaders maxMessagePayload;
  emptyMsgAlert := empty cmdAlert maxMessagePayload;
  emptyMsgMemPool := empty cmdMemPool 0
|}.

End Reference.

(** ** Messages and streams to run the definitions on *)

Module Example.

Definition mainNet : Z := 0xd9b4bef9.
Definition testNet3 : Z := 0x0709110b.

Definition localhost : Reference.NetAddr :=
  Reference.mkNetAddr (mkTime 0 0) 0
    (repeat Byte.x00 10
     ++ [Byte.xff; Byte.xff; Byte.x7f; Byte.x00; Byte.x00; Byte.x01])
    8333.

(** A version message as in the spec's scenario (protocol version 70001,
    user agent "/test:0.0.1/"), sent half a second after [sec], and what
    decoding gives back for it: the time is cut. *)
Definition message (sec services n lastBlock : Z)
  : @MsgVersion Reference.package :=
  @mkMsgVersion Reference.package 70001 services (mkTime sec 500000000)
    localhost localhost n "/test:0.0.1/" lastBlock.

Definition messageDecoded (sec services n lastBlock : Z)
  : @MsgVersion Reference.package :=
  @mkMsgVersion Reference.package 70001 services (mkTime sec 0)
    localhost localhost n "/test:0.0.1/" lastBlock.

(** The scenario: no services, last block 123456, with a nonce to choose. *)
Definition version (n : Z) : @MsgVersion Reference.package :=
  message 1400000000 0 n 123456.

Definition versionDecoded (n : Z) : @MsgVersion Reference.package :=
  messageDecoded 1400000000 0 n 123456.

Definition nonce : Z := 0x1234567890abcdef.

Definition localhostBytes : list byte :=
  le_split 8 0
  ++ (repeat Byte.x00 10
      ++ [Byte.xff; Byte.xff; Byte.x7f; Byte.x00; Byte.x00; Byte.x01])
  ++ [byte.of_Z 0x20; byte.of_Z 0x8d].

(** The payload of a message, and of [version n]. *)
Definition payloadOf (msg : @MsgVersion Reference.package) : list byte :=
  output (fst (@MsgVersion_BtcEncode Reference.package msg emptyBuffer 70001)).

Definition payload (n : Z) : list byte := payloadOf (version n).

(** Two pairs of messages that differ in the nonce: in one bit of its lowest
    byte (a8 and ac), and in every bit of its third byte (ab and 54). *)
Definition bitSent : @MsgVersion Reference.package :=
  version 0x12345678907357a8.
Definition bitReceived : @MsgVersion Reference.package :=
  version 0x12345678907357ac.
Definition bitDecoded : @MsgVersion Reference.package :=
  versionDecoded 0x12345678907357ac.

Definition byteSent : @MsgVersion Reference.package :=
  message 1400000220 0xff0000ffff 0x1234568790abcd10 16704191.
Definition byteReceived : @MsgVersion Reference.package :=
  message 1400000220 0xff0000ffff 0x123456879054cd10 16704191.
Definition byteDecoded : @MsgVersion Reference.package :=
  messageDecoded 1400000220 0xff0000ffff 0x123456879054cd10 16704191.

(** The stream that carries the payload of [received] behind a header with
    the checksum of the payload of [sent]. *)
Definition altered (sent received : @MsgVersion Reference.package)
  : list byte :=
  le_split 4 mainNet ++ copyInto 12 (bytes_of "version")
  ++ le_split 4 (len (payloadOf received))
  ++ firstn 4 (Sha256.DoubleSha256 (payloadOf sent))
  ++ payloadOf received.

(** A header, and a stream that holds a header and what follows it. *)
Definition header (net : Z) (cmd : string) (l : Z) (sum : list byte)
  : list byte :=
  le_split 4 net ++ copyInto 12 (bytes_of cmd) ++ le_split 4 l ++ sum.

Definition zeros4 : list byte := repeat Byte.x00 4.

(** A user agent of 2001 bytes. *)
Definition longUserAgent : string := string_of (repeat Byte.x61 2001).

Definition versionLong : @MsgVersion Reference.package :=
  @mkMsgVersion Reference.package 70001 0 (mkTime 1400000000 0)
    localhost localhost nonce longUserAgent 123456.

(** A message with a command of 13 bytes. *)
Definition longCommand : Reference.Blob :=
  Reference.mkBlob "averylongname" 0 [].



End Example.

(** ** What the specification says is requested and allocated *)

(** The requests the spec gives the discard utility for [n] bytes: [n / 10240]
    full chunks, and the remainder when there is one. *)
Definition chunkSize : Z := 10240.

Definition chunkRequests (n : Z) : list Z :=
  repeat chunkSize (Z.to_nat (n / chunkSize))
  ++ (if 0 <? n mod chunkSize then [n mod chunkSize] else []).

(** The buffers it may allocate: the chunk buffer, and one for the remainder. *)
Definition chunkBuffers (n : Z) : list Z :=
  (if 0 <? n then [chunkSize] else [])
  ++ (if 0 <? n mod chunkSize then [n mod chunkSize] else []).

Definition total (l : list Z) : Z := fold_right Z.add 0 l.

(** The reads of a header: the network, the command, the length, the
    checksum. *)
Definition headerRequests : list Z := [4; 12; 4; 4].

(** The bytes of a frame as the spec lays them out: the network id, the
    command padded with zeros to 12 bytes, the length of the payload, the
    checksum, and the payload. *)
Definition frameBytes (btcnet : Z) (cmd : string) (sum payload : list byte)
  : list byte :=
  le_split 4 btcnet ++ copyInto 12 (bytes_of cmd)
  ++ le_split 4 (len payload) ++ sum ++ payload.

(** Writes made one after the other, until one fails. *)
Fixpoint writeAll (ps : list (list byte)) : io Writer unit :=
  match ps with
  | [] => ret tt
  | p :: t => Write p ;;; writeAll t
  end.

(** A computation on a stream that, given the bytes [bs] at the front of
    the stream, takes them and returns [a]; one on a sink that grows, which
    appends [bs]. *)
Definition reading {A} (c : io Reader A) (bs : list byte) (a : A) : Prop :=
  forall r rest, input r = bs ++ rest ->
    exists r', c r = (r', inr a) /\ input r' = rest.

Definition writing (c : io Writer unit) (bs : list byte) : Prop :=
  forall w, room w = None ->
    c w = ({| output := output w ++ bs; room := None |}, inr tt).

Section WireSpec.

Context {pkg : Package}.

(** What the version message needs of the address codec, for one record
    [na]: written (without the time stamp, as the version message asks) it
    gives the bytes [bs], at most the maximum for the protocol version, and
    read from these bytes it is [na] again. *)
Definition NetAddress_wire (pver : Z) (na : NetAddress) (bs : list byte)
  : Prop :=
  writing (fun w => writeNetAddress w pver na false) bs
  /\ (forall r na0 rest, input r = bs ++ rest ->
        exists r', readNetAddress r pver na0 false = (r', na, None)
                   /\ input r' = rest)
  /\ 0 <= len bs <= maxNetAddressPayload pver.

(** The payload of a version message as the spec lays it out, given the
    bytes of the two address records. *)
Definition versionBytes (msg : MsgVersion) (you me : list byte) : list byte :=
  le_split 4 (ProtocolVersion msg)
  ++ le_split 8 (Services msg)
  ++ le_split 8 (Time_Unix (Timestamp msg))
  ++ you ++ me
  ++ le_split 8 (Nonce msg)
  ++ (varIntBytes (strlen (UserAgent msg)) ++ bytes_of (UserAgent msg))
  ++ le_split 4 (LastBlock msg).

(** The fields hold values of their Go types. *)
Definition well_typed (msg : MsgVersion) : Prop :=
  is_int32 (ProtocolVersion msg)
  /\ is_uint64 (Services msg)
  /\ is_int64 (Time_Unix (Timestamp msg))
  /\ is_uint64 (Nonce msg)
  /\ is_int32 (LastBlock msg).

(** The message with its time cut to the second. *)
Definition toSeconds (msg : MsgVersion) : MsgVersion :=
  set_Timestamp (time_Unix (Time_Unix (Timestamp msg)) 0) msg.

(** A step of [MsgVersion_decode] that, given the bytes [bs], takes them,
    changes the message by [f] and ends with [res]. *)
Definition decoding {A} (c : io (Reader * MsgVersion) A) (bs : list byte)
    (f : MsgVersion -> MsgVersion) (res : error + A) : Prop :=
  forall r m rest, input r = bs ++ rest ->
    exists r', c (r, m) = ((r', f m), res) /\ input r' = rest.

End WireSpec.

Section FrameSpec.

Context {pkg : Package}.

(** A version message that can be sent at protocol version [pver]: its
    fields hold values of their types, its user agent is within the limit,
    the address codec carries its two address records as [you] and [me], and
    the double hash of its payload has the four bytes of a checksum. *)
Definition sendable (pver : Z) (msg : MsgVersion) (you me : list byte)
  : Prop :=
  well_typed msg
  /\ strlen (UserAgent msg) <= MaxUserAgentLen
  /\ NetAddress_wire pver (AddrYou msg) you
  /\ NetAddress_wire pver (AddrMe msg) me
  /\ 4 <= len (DoubleSha256 (versionBytes msg you me)).

(** The frame of a version message. *)
Definition versionFrame (btcnet : Z) (msg : MsgVersion) (you me : list byte)
  : list byte :=
  frameBytes btcnet cmdVersion
    (firstn 4 (DoubleSha256 (versionBytes msg you me)))
    (versionBytes msg you me).

End FrameSpec.

(** ** Properties *)

(** *** The streams *)

Lemma ReadFull_input (n : Z) (r : Reader) :
  input (fst (ReadFull n r)) = skipn (Z.to_nat n) (input r).
Proof.
  unfold ReadFull. destruct (n <=? 0) eqn:E.
  - apply Z.leb_le in E. replace (Z.to_nat n) with 0%nat by lia. reflexivity.
  - destruct (_ <=? _)%nat; reflexivity.
Qed.

Lemma ReadFull_reads (n : Z) (r : Reader) :
  reads (fst (ReadFull n r)) = reads r ++ (if 0 <? n then [n] else []).
Proof.
  unfold ReadFull. destruct (n <=? 0) eqn:E.
  - apply Z.leb_le in E. destruct (0 <? n) eqn:F; [apply Z.ltb_lt in F; lia|].
    simpl. now rewrite app_nil_r.
  - apply Z.leb_gt in E. destruct (0 <? n) eqn:F; [|apply Z.ltb_ge in F; lia].
    destruct (_ <=? _)%nat; reflexivity.
Qed.

Lemma ReadFull_allocs (n : Z) (r : Reader) :
  allocs (fst (ReadFull n r)) = allocs r.
Proof.
  unfold ReadFull. destruct (n <=? 0); [reflexivity|].
  destruct (_ <=? _)%nat; reflexivity.
Qed.

(** A read that succeeds gives the first [n] bytes, and there were [n]. *)
Lemma ReadFull_ok (n : Z) (r r' : Reader) (b : list byte) :
  0 <= n ->
  ReadFull n r = (r', inr b) ->
  b = firstn (Z.to_nat n) (input r)
  /\ (Z.to_nat n <= List.length (input r))%nat
  /\ r' = fst (ReadFull n r).
Proof.
  intros Hn H.
  assert (Hr : r' = fst (ReadFull n r)) by now rewrite H.
  split; [|split; [|exact Hr]]; clear Hr;
    unfold ReadFull in H; destruct (n <=? 0) eqn:E.
  - apply Z.leb_le in E. replace (Z.to_nat n) with 0%nat by lia.
    now inversion H.
  - destruct (_ <=? _)%nat; now inversion H.
  - apply Z.leb_le in E. lia.
  - destruct (_ <=? _)%nat eqn:F; [|discriminate]. now apply Nat.leb_le.
Qed.

(** A stream that has the bytes gives them. *)
Lemma ReadFull_app (n : Z) (r : Reader) (b rest : list byte) :
  input r = b ++ rest ->
  len b = n ->
  ReadFull n r =
  ({| input := rest;
      reads := reads r ++ (if 0 <? n then [n] else []);
      allocs := allocs r |}, inr b).
Proof.
  intros Hi Hl. unfold len in Hl. unfold ReadFull.
  destruct (n <=? 0) eqn:E.
  - apply Z.leb_le in E.
    assert (b = []) by (destruct b; [reflexivity | simpl in Hl; lia]).
    subst b. destruct (0 <? n) eqn:F; [apply Z.ltb_lt in F; lia|].
    simpl in Hi. rewrite app_nil_r, <- Hi. now destruct r.
  - apply Z.leb_gt in E. destruct (0 <? n) eqn:F; [|apply Z.ltb_ge in F; lia].
    assert (Hk : Z.to_nat n = List.length b) by lia.
    rewrite Hk, Hi, length_app.
    replace (_ <=? _)%nat with true by (symmetry; apply Nat.leb_le; lia).
    now rewrite skipn_app, skipn_all, Nat.sub_diag, firstn_app, firstn_all,
      Nat.sub_diag, app_nil_r.
Qed.

(** *** discardInput *)

Lemma readChunks_spec (k : nat) (m : Z) (r : Reader) :
  0 < m ->
  input (readChunks k m r) = skipn (k * Z.to_nat m) (input r)
  /\ reads (readChunks k m r) = reads r ++ repeat m k
  /\ allocs (readChunks k m r) = allocs r.
Proof.
  intros Hm. revert r.
  induction k as [|k IH]; intros r; simpl.
  - now rewrite app_nil_r.
  - destruct (IH (fst (ReadFull m r))) as (Hi & Hr & Ha).
    rewrite Hi, Hr, Ha, ReadFull_input, ReadFull_reads, ReadFull_allocs.
    replace (0 <? m) with true by (symmetry; now apply Z.ltb_lt).
    rewrite skipn_skipn, <- app_assoc.
    repeat split. f_equal. lia.
Qed.

Lemma discardInput_spec (r : Reader) (n : Z) :
  0 <= n ->
  input (discardInput r n) = skipn (Z.to_nat n) (input r)
  /\ reads (discardInput r n) = reads r ++ chunkRequests n
  /\ allocs (discardInput r n) = allocs r ++ chunkBuffers n.
Proof.
  intros Hn. unfold discardInput, chunkRequests, chunkBuffers.
  change (uint32 (10 * 1024)) with chunkSize.
  assert (Hc : chunkSize = 10240) by reflexivity.
  pose proof (Z.div_mod n chunkSize) as Hdm.
  pose proof (Z.mod_pos_bound n chunkSize) as Hmod.
  assert (0 <= n / chunkSize) by (apply Z.div_pos; lia).
  set (q := n / chunkSize) in *. set (m := n mod chunkSize) in *.
  destruct (readChunks_spec (Z.to_nat q) chunkSize (fst (make chunkSize r)))
    as (Hi & Hr & Ha); [lia|].
  cbn [make fst input reads allocs] in Hi, Hr, Ha.
  destruct (0 <? n) eqn:En; destruct (0 <? m) eqn:Em;
    try apply Z.ltb_lt in En; try apply Z.ltb_lt in Em;
    try apply Z.ltb_ge in En; try apply Z.ltb_ge in Em.
  - rewrite ReadFull_input, ReadFull_reads, ReadFull_allocs.
    cbn [make fst input reads allocs].
    replace (0 <? m) with true by (symmetry; now apply Z.ltb_lt).
    rewrite Hi, Hr, Ha, skipn_skipn, <- !app_assoc.
    repeat split. f_equal. lia.
  - cbn [make fst input reads allocs].
    rewrite Hi, Hr, Ha, !app_nil_r. repeat split. f_equal. lia.
  - lia.
  - rewrite !app_nil_r. replace q with 0 by lia.
    replace (Z.to_nat n) with 0%nat by lia. repeat split.
    simpl. now rewrite app_nil_r.
Qed.

Lemma total_app (a b : list Z) : total (a ++ b) = total a + total b.
Proof.
  unfold total. induction a as [|x a IH]; cbn [app fold_right]; lia.
Qed.

Lemma total_repeat (x : Z) (k : nat) : total (repeat x k) = Z.of_nat k * x.
Proof.
  unfold total. induction k as [|k IH]; cbn [repeat fold_right]; lia.
Qed.

Lemma chunkRequests_total (n : Z) : 0 <= n -> total (chunkRequests n) = n.
Proof.
  intros Hn. unfold chunkRequests. rewrite total_app, total_repeat.
  assert (0 <= n / chunkSize) by (apply Z.div_pos; [lia | reflexivity]).
  pose proof (Z.div_mod n chunkSize) as Hdm.
  pose proof (Z.mod_pos_bound n chunkSize) as Hmod.
  assert (chunkSize = 10240) by reflexivity.
  destruct (0 <? n mod chunkSize) eqn:E;
    [apply Z.ltb_lt in E | apply Z.ltb_ge in E];
    unfold total; cbn [fold_right]; lia.
Qed.

Lemma chunkRequests_count (n : Z) :
  0 <= n -> len (chunkRequests n) = (n + (chunkSize - 1)) / chunkSize.
Proof.
  intros Hn. unfold chunkRequests, len. rewrite length_app, repeat_length.
  assert (0 <= n / chunkSize) by (apply Z.div_pos; [lia | reflexivity]).
  pose proof (Z.div_mod n chunkSize) as Hdm.
  pose proof (Z.mod_pos_bound n chunkSize) as Hmod.
  assert (Hc : chunkSize = 10240) by reflexivity.
  set (q := n / chunkSize) in *. set (m := n mod chunkSize) in *.
  destruct (0 <? m) eqn:E; [apply Z.ltb_lt in E | apply Z.ltb_ge in E];
    cbn [List.length].
  - apply Z.div_unique with (r := m - 1); lia.
  - apply Z.div_unique with (r := chunkSize - 1); lia.
Qed.

Lemma chunkRequests_bounded (n : Z) :
  Forall (fun c => 0 < c <= chunkSize) (chunkRequests n).
Proof.
  unfold chunkRequests. apply Forall_app. split.
  - apply Forall_forall. intros x Hx. apply repeat_spec in Hx. subst x.
    unfold chunkSize. lia.
  - pose proof (Z.mod_pos_bound n chunkSize) as Hmod.
    assert (chunkSize = 10240) by reflexivity.
    destruct (0 <? n mod chunkSize) eqn:E; constructor;
      [apply Z.ltb_lt in E; lia | constructor].
Qed.

Lemma chunkBuffers_bounded (n : Z) :
  Forall (fun c => 0 < c <= chunkSize) (chunkBuffers n)
  /\ (List.length (chunkBuffers n) <= 2)%nat.
Proof.
  unfold chunkBuffers.
  pose proof (Z.mod_pos_bound n chunkSize) as Hmod.
  assert (chunkSize = 10240) by reflexivity.
  destruct (0 <? n); destruct (0 <? n mod chunkSize) eqn:E; simpl;
    try apply Z.ltb_lt in E;
    (split; [repeat constructor; lia | lia]).
Qed.

(** C9.  For every [n] of type [uint32], [discardInput] asks the stream
    for exactly [n] bytes, in [n / 10240] requests of 10240 bytes and one of
    [n mod 10240] bytes when that is not zero: the ceiling of [n / 10240]
    requests, none of more than 10240 bytes.  It allocates at most two
    buffers, none larger than the chunk, whatever [n] is.  The stream [r] is
    any stream: when it ends early the reads that fail are made all the same,
    and the function has no error to return. *)
Theorem discardInput_requests (r : Reader) (n : Z) :
  is_uint32 n ->
  reads (discardInput r n) = reads r ++ chunkRequests n
  /\ total (chunkRequests n) = n
  /\ len (chunkRequests n) = (n + 10239) / 10240
  /\ Forall (fun c => 0 < c <= 10240) (chunkRequests n)
  /\ input (discardInput r n) = skipn (Z.to_nat n) (input r)
  /\ allocs (discardInput r n) = allocs r ++ chunkBuffers n
  /\ Forall (fun c => 0 < c <= 10240) (chunkBuffers n)
  /\ (List.length (chunkBuffers n) <= 2)%nat.
Proof.
  intros [Hn _].
  destruct (discardInput_spec r n Hn) as (Hi & Hr & Ha).
  destruct (chunkBuffers_bounded n) as (Hb & Hl).
  repeat split; auto.
  - now apply chunkRequests_total.
  - now apply chunkRequests_count.
  - apply chunkRequests_bounded.
Qed.

(** Three requests serve 25000 bytes, also on a stream that has only three
    bytes to give. *)
Lemma discardInput_requests_witness :
  let r := NewBuffer [Byte.x01; Byte.x02; Byte.x03] in
  reads (discardInput r 25000) = [10240; 10240; 4520]
  /\ input (discardInput r 25000) = []
  /\ allocs (discardInput r 25000) = [10240; 4520].
Proof.
  intros r.
  destruct (discardInput_requests r 25000) as (Hr & _ & _ & _ & Hi & Ha & _).
  - unfold is_uint32. lia.
  - split; [exact Hr | split; [exact Hi | exact Ha]].
Defined.

(** *** The monad *)

Lemma bind_inr {S A B} (c : io S A) (k : A -> io S B) (s s' : S) (b : B) :
  bind c k s = (s', inr b) ->
  exists s1 a, c s = (s1, inr a) /\ k a s1 = (s', inr b).
Proof.
  unfold bind. destruct (c s) as [s1 [e|a]]; [discriminate|]. eauto.
Qed.

(** *** The header *)

(** A header that was read took 24 bytes off the stream in four reads, and
    its length is a [uint32]. *)
Lemma readMessageHeader_ok (r r' : Reader) (hdr : messageHeader) :
  readMessageHeader r = (r', inr hdr) ->
  input r' = skipn 24 (input r)
  /\ reads r' = reads r ++ headerRequests
  /\ allocs r' = allocs r
  /\ (24 <= List.length (input r))%nat
  /\ is_uint32 (length hdr)
  /\ List.length (checksum hdr) = 4%nat.
Proof.
  unfold readMessageHeader, readUint32, readBytes, commandSize. intros H.
  apply bind_inr in H. destruct H as (r1 & m & H1 & H).
  apply bind_inr in H1. destruct H1 as (r1' & b1 & H1 & E1).
  inversion E1; subst; clear E1.
  apply bind_inr in H. destruct H as (r2 & b2 & H2 & H).
  apply bind_inr in H. destruct H as (r3 & l & H3 & H).
  apply bind_inr in H3. destruct H3 as (r3' & b3 & H3 & E3).
  inversion E3; subst; clear E3.
  apply bind_inr in H. destruct H as (r4 & b4 & H4 & H).
  inversion H; subst; clear H. cbn [length checksum].
  apply ReadFull_ok in H1, H2, H3, H4; try lia.
  destruct H1 as (B1 & L1 & R1), H2 as (B2 & L2 & R2),
    H3 as (B3 & L3 & R3), H4 as (B4 & L4 & R4).
  subst r' r3 r2 r1.
  rewrite !ReadFull_input, !ReadFull_reads, !ReadFull_allocs in *.
  rewrite !skipn_skipn, <- !app_assoc in *.
  rewrite !length_skipn in *.
  repeat split; try reflexivity.
  - lia.
  - pose proof (le_combine_bound b3) as Hb.
    replace (8 * Z.of_nat (List.length b3)) with 32 in Hb; [lia|].
    subst b3. rewrite length_firstn, length_skipn. lia.
  - pose proof (le_combine_bound b3) as Hb.
    replace (8 * Z.of_nat (List.length b3)) with 32 in Hb; [lia|].
    subst b3. rewrite length_firstn, length_skipn. lia.
  - subst b4. rewrite length_firstn, length_skipn. lia.
Qed.

Section Properties.

Context {pkg : Package}.

(** *** ReadMessage: the checks made on the header *)

(** C1.  When the header that was read declares more than the 32 MiB of
    [maxMessagePayload], [ReadMessage] returns its error with the stream as
    the header left it: 24 bytes were taken, in the four reads of the header;
    no other read was asked for (nothing is drained) and no buffer was
    allocated.  Nothing is assumed of the network or the command in the
    header: this check comes first. *)
Theorem ReadMessage_header_too_large
    (r : Reader) (pver btcnet : Z) (r' : Reader) (hdr : messageHeader) :
  readMessageHeader r = (r', inr hdr) ->
  maxMessagePayload < length hdr ->
  ReadMessage r pver btcnet =
    (r', inl (MessageError "ReadMessage"
                (DescHeaderTooLarge (length hdr) 33554432)))
  /\ input r' = skipn 24 (input r)
  /\ reads r' = reads r ++ headerRequests
  /\ allocs r' = allocs r.
Proof.
  intros Hh Hl.
  destruct (readMessageHeader_ok _ _ _ Hh) as (Hi & Hr & Ha & _).
  split; [|auto].
  unfold ReadMessage. rewrite Hh.
  apply Z.ltb_lt in Hl. now rewrite Hl.
Qed.

(** Whatever the header declares, what [ReadMessage] asks of the stream
    after the header is at most the declared length and at most 32 MiB. *)
Lemma ReadMessage_requests_bounded
    (r : Reader) (pver btcnet : Z) (r' : Reader) (hdr : messageHeader) :
  readMessageHeader r = (r', inr hdr) ->
  exists extra,
    reads (fst (ReadMessage r pver btcnet)) = reads r' ++ extra
    /\ 0 <= total extra <= Z.min (length hdr) maxMessagePayload.
Proof.
  intros Hh.
  destruct (readMessageHeader_ok _ _ _ Hh) as (_ & _ & _ & _ & Hu & _).
  destruct Hu as [Hn _].
  assert (Hmax : maxMessagePayload = 33554432) by reflexivity.
  unfold ReadMessage. rewrite Hh.
  destruct (Z.ltb_spec maxMessagePayload (length hdr)) as [Hl|Hl].
  { exists []. cbn [fst]. rewrite app_nil_r. split; [reflexivity|].
    unfold total. cbn [fold_right]. lia. }
  assert (Hd : exists extra,
             reads (discardInput r' (length hdr)) = reads r' ++ extra
             /\ 0 <= total extra <= Z.min (length hdr) maxMessagePayload).
  { exists (chunkRequests (length hdr)).
    destruct (discardInput_spec r' (length hdr) Hn) as (_ & Hr & _).
    split; [exact Hr|]. rewrite chunkRequests_total by exact Hn. lia. }
  destruct (negb (magic hdr =? btcnet)); [exact Hd|].
  destruct (negb (utf8_ValidString (command hdr))); [exact Hd|].
  destruct (makeEmptyMessage (command hdr)) as [err|msg]; [exact Hd|].
  destruct (_ <? length hdr); [exact Hd|].
  exists (if 0 <? length hdr then [length hdr] else []).
  split.
  - unfold bind, make.
    match goal with
    | |- context [ReadFull (length hdr) ?s] =>
        pose proof (ReadFull_reads (length hdr) s) as Hr;
        destruct (ReadFull (length hdr) s) as [r2 [err|payload]]
    end; cbn [fst reads] in Hr; [exact Hr|].
    destruct (negb _); [exact Hr|].
    destruct (BtcDecode _ _ _) as [[pr m] [err|]]; exact Hr.
  - destruct (0 <? length hdr); unfold total; cbn [fold_right]; lia.
Qed.

(** C2.  When the header passed the check of the global maximum and
    [ReadMessage] then rejects it (for a network that is not the expected
    one; else for a command that is not UTF-8; else for a command that
    [makeEmptyMessage] does not know; else for a length above the maximum of
    the message type), the stream it leaves is the one [discardInput] leaves
    when called with the length of the header: exactly that many bytes were
    asked for, and they are at most 32 MiB.  The check of the global maximum
    comes before all of them: whatever the header declares, what is asked of
    the stream after the header is at most 32 MiB. *)
Theorem ReadMessage_rejects_after_discard
    (r : Reader) (pver btcnet : Z) (r' : Reader) (hdr : messageHeader) :
  readMessageHeader r = (r', inr hdr) ->
  (length hdr <= maxMessagePayload ->
   let drained := discardInput r' (length hdr) in
   (magic hdr <> btcnet ->
    ReadMessage r pver btcnet =
      (drained,
       inl (MessageError "ReadMessage" (DescOtherNetwork (magic hdr)))))
   /\ (magic hdr = btcnet ->
       utf8_ValidString (command hdr) = false ->
       ReadMessage r pver btcnet =
         (drained, inl (MessageError "ReadMessage"
                          (DescInvalidCommand (bytes_of (command hdr))))))
   /\ (magic hdr = btcnet ->
       utf8_ValidString (command hdr) = true ->
       forall err, makeEmptyMessage (command hdr) = inl err ->
       ReadMessage r pver btcnet =
         (drained, inl (MessageError "ReadMessage" (Error err))))
   /\ (magic hdr = btcnet ->
       utf8_ValidString (command hdr) = true ->
       forall msg, makeEmptyMessage (command hdr) = inr msg ->
       @MaxPayloadLength _ (methods msg) (value msg) pver < length hdr ->
       ReadMessage r pver btcnet =
         (drained, inl (MessageError "ReadMessage"
                          (DescExceedsMaxLength (length hdr) (command hdr)
                             (@MaxPayloadLength _ (methods msg) (value msg)
                                pver)))))
   /\ reads drained = reads r' ++ chunkRequests (length hdr)
   /\ total (chunkRequests (length hdr)) = length hdr
   /\ length hdr <= 33554432
   /\ input drained = skipn (Z.to_nat (length hdr)) (input r'))
  /\ (exists extra,
        reads (fst (ReadMessage r pver btcnet)) = reads r' ++ extra
        /\ 0 <= total extra <= 33554432).
Proof.
  intros Hh. split.
  - intros Hl drained.
    destruct (readMessageHeader_ok _ _ _ Hh) as (_ & _ & _ & _ & Hu & _).
    destruct Hu as [Hn _].
    destruct (discardInput_spec r' (length hdr) Hn) as (Hi & Hr & _).
    assert (Hg : (maxMessagePayload <? length hdr) = false)
      by now apply Z.ltb_ge.
    repeat match goal with |- _ /\ _ => split end;
      try assumption; try (now apply chunkRequests_total);
      unfold ReadMessage; rewrite Hh, Hg.
    + intros Hm. apply Z.eqb_neq in Hm. now rewrite Hm.
    + intros Hm Hv. apply Z.eqb_eq in Hm. now rewrite Hm, Hv.
    + intros Hm Hv err He. apply Z.eqb_eq in Hm. now rewrite Hm, Hv, He.
    + intros Hm Hv msg He Hp. apply Z.eqb_eq in Hm. apply Z.ltb_lt in Hp.
      rewrite Hm, Hv. cbn [negb]. rewrite He, Hp. reflexivity.
  - destruct (ReadMessage_requests_bounded r pver btcnet r' hdr Hh)
      as (extra & Hr & Ht).
    exists extra. split; [exact Hr|].
    change maxMessagePayload with 33554432 in Ht. lia.
Qed.

(** *** makeEmptyMessage *)

Ltac other_command H :=
  match goal with
  | |- context [String.eqb ?s ?c] =>
      destruct (String.eqb_spec s c) as [->|_];
      [exfalso; apply H; unfold knownCommands; simpl; tauto|]
  end.

Lemma makeEmptyMessage_unknown (s : string) :
  ~ In s knownCommands ->
  makeEmptyMessage s = inl (ErrorString (DescUnhandledCommand s)).
Proof.
  intros H. unfold makeEmptyMessage.
  do 16 other_command H. reflexivity.
Qed.

(** C8.  [makeEmptyMessage] maps each of the sixteen commands to the empty
    message of its type, and every other string to an error and no message.
    A header that carries such a string (and passes the checks made before)
    makes [ReadMessage] drain the declared length and return the error. *)
Theorem makeEmptyMessage_registry :
  map makeEmptyMessage knownCommands =
    map inr [asMessage emptyMsgVersion; emptyMsgVerAck; emptyMsgGetAddr;
             emptyMsgAddr; emptyMsgGetBlocks; emptyMsgBlock; emptyMsgInv;
             emptyMsgGetData; emptyMsgNotFound; emptyMsgTx; emptyMsgPing;
             emptyMsgPong; emptyMsgGetHeaders; emptyMsgHeaders; emptyMsgAlert;
             emptyMsgMemPool]
  /\ (forall s, ~ In s knownCommands ->
        makeEmptyMessage s = inl (ErrorString (DescUnhandledCommand s)))
  /\ (forall s, In s knownCommands <-> exists msg, makeEmptyMessage s = inr msg)
  /\ (forall r pver btcnet r' hdr,
        readMessageHeader r = (r', inr hdr) ->
        length hdr <= maxMessagePayload ->
        magic hdr = btcnet ->
        utf8_ValidString (command hdr) = true ->
        ~ In (command hdr) knownCommands ->
        ReadMessage r pver btcnet =
          (discardInput r' (length hdr),
           inl (MessageError "ReadMessage"
                  (DescUnhandledCommand (command hdr))))).
Proof.
  split; [reflexivity|]. split; [exact makeEmptyMessage_unknown|]. split.
  - intros s. split.
    + unfold knownCommands. simpl.
      intros H. repeat (destruct H as [<-|H]; [eexists; reflexivity|]).
      contradiction.
    + intros [msg H].
      destruct (in_dec string_dec s knownCommands) as [Hin|Hout]; [assumption|].
      rewrite (makeEmptyMessage_unknown s Hout) in H. discriminate.
  - intros r pver btcnet r' hdr Hh Hl Hm Hv Hk.
    unfold ReadMessage. rewrite Hh.
    apply Z.ltb_ge in Hl. apply Z.eqb_eq in Hm. rewrite Hl, Hm, Hv.
    cbn [negb]. now rewrite (makeEmptyMessage_unknown _ Hk).
Qed.

(** *** ReadMessage: the checksum *)

Lemma bytes_Equal_eq (a b : list byte) : bytes_Equal a b = true <-> a = b.
Proof.
  revert b. induction a as [|x a IH]; intros [|y b]; simpl;
    try (split; [discriminate | congruence]); [tauto|].
  rewrite andb_true_iff, IH. split.
  - intros [H ->]. apply Byte.byte_dec_bl in H. now subst.
  - intros H. inversion H; subst. split; [apply Byte.byte_dec_lb|]; reflexivity.
Qed.

(** C3, as amended.  Once the header passed its checks and the stream gave
    the declared number of bytes, [ReadMessage] compares the first four bytes
    of the double hash of those bytes with the checksum of the header, and
    when they differ it returns the checksum error: the stream is where the
    read of the payload left it (nothing is drained), and the error does not
    depend on what [BtcDecode] of the message would do, which is any function.
    So a payload that was altered is rejected whenever the first four bytes of
    its double hash are not the ones in the header. *)
Theorem ReadMessage_checksum_mismatch
    (r : Reader) (pver btcnet : Z) (r' : Reader) (hdr : messageHeader)
    (msg : AnyMessage) :
  readMessageHeader r = (r', inr hdr) ->
  length hdr <= maxMessagePayload ->
  magic hdr = btcnet ->
  utf8_ValidString (command hdr) = true ->
  makeEmptyMessage (command hdr) = inr msg ->
  length hdr <= @MaxPayloadLength _ (methods msg) (value msg) pver ->
  (Z.to_nat (length hdr) <= List.length (input r'))%nat ->
  let payload := firstn (Z.to_nat (length hdr)) (input r') in
  firstn 4 (DoubleSha256 payload) <> checksum hdr ->
  ReadMessage r pver btcnet =
    ({| input := skipn (Z.to_nat (length hdr)) (input r');
        reads := reads r' ++ (if 0 <? length hdr then [length hdr] else []);
        allocs := allocs r' ++ [length hdr] |},
     inl (MessageError "ReadMessage"
            (DescChecksumFailed (checksum hdr)
               (firstn 4 (DoubleSha256 payload))))).
Proof.
  intros Hh Hl Hm Hv He Hp Hs payload Hc.
  destruct (readMessageHeader_ok _ _ _ Hh) as (_ & _ & _ & _ & Hu & _).
  unfold ReadMessage. rewrite Hh.
  apply Z.ltb_ge in Hl, Hp. apply Z.eqb_eq in Hm.
  rewrite Hl, Hm, Hv. cbn [negb]. rewrite He, Hp.
  assert (Hr : (make (length hdr) ;;; ReadFull (length hdr)) r' =
    ({| input := skipn (Z.to_nat (length hdr)) (input r');
        reads := reads r' ++ (if 0 <? length hdr then [length hdr] else []);
        allocs := allocs r' ++ [length hdr] |}, inr payload)).
  { unfold bind, make.
    rewrite (ReadFull_app (length hdr) _ payload
               (skipn (Z.to_nat (length hdr)) (input r'))).
    - reflexivity.
    - cbn [input]. symmetry. apply firstn_skipn.
    - unfold len, payload. rewrite length_firstn. destruct Hu. lia. }
  rewrite Hr.
  destruct (bytes_Equal _ _) eqn:E; [|reflexivity].
  apply bytes_Equal_eq in E. contradiction.
Qed.

(** The other way: when the checksum is the one of the header and the
    payload decodes, [ReadMessage] returns the message and the payload. *)
Lemma ReadMessage_accepts
    (r : Reader) (pver btcnet : Z) (r' : Reader) (hdr : messageHeader)
    (msg : AnyMessage) (pr : Reader) (m : concrete msg) :
  readMessageHeader r = (r', inr hdr) ->
  length hdr <= maxMessagePayload ->
  magic hdr = btcnet ->
  utf8_ValidString (command hdr) = true ->
  makeEmptyMessage (command hdr) = inr msg ->
  length hdr <= @MaxPayloadLength _ (methods msg) (value msg) pver ->
  (Z.to_nat (length hdr) <= List.length (input r'))%nat ->
  let payload := firstn (Z.to_nat (length hdr)) (input r') in
  firstn 4 (DoubleSha256 payload) = checksum hdr ->
  @BtcDecode _ (methods msg) (value msg) (NewBuffer payload) pver
    = (pr, m, None) ->
  ReadMessage r pver btcnet =
    ({| input := skipn (Z.to_nat (length hdr)) (input r');
        reads := reads r' ++ (if 0 <? length hdr then [length hdr] else []);
        allocs := allocs r' ++ [length hdr] |},
     inr (@asMessage _ (methods msg) m, payload)).
Proof.
  intros Hh Hl Hm Hv He Hp Hs payload Hc Hd.
  destruct (readMessageHeader_ok _ _ _ Hh) as (_ & _ & _ & _ & Hu & _).
  unfold ReadMessage. rewrite Hh.
  apply Z.ltb_ge in Hl, Hp. apply Z.eqb_eq in Hm.
  rewrite Hl, Hm, Hv. cbn [negb]. rewrite He, Hp.
  assert (Hr : (make (length hdr) ;;; ReadFull (length hdr)) r' =
    ({| input := skipn (Z.to_nat (length hdr)) (input r');
        reads := reads r' ++ (if 0 <? length hdr then [length hdr] else []);
        allocs := allocs r' ++ [length hdr] |}, inr payload)).
  { unfold bind, make.
    rewrite (ReadFull_app (length hdr) _ payload
               (skipn (Z.to_nat (length hdr)) (input r'))).
    - reflexivity.
    - cbn [input]. symmetry. apply firstn_skipn.
    - unfold len, payload. rewrite length_firstn. destruct Hu. lia. }
  rewrite Hr. apply bytes_Equal_eq in Hc. rewrite Hc. cbn [negb].
  now rewrite Hd.
Qed.

(** *** WriteMessage *)

Lemma writeAll_unbounded (ps : list (list byte)) (w : Writer) :
  room w = None ->
  writeAll ps w = ({| output := output w ++ List.concat ps; room := None |}, inr tt).
Proof.
  revert w. induction ps as [|p ps IH]; intros w Hw; cbn [writeAll List.concat].
  - unfold ret. rewrite app_nil_r. destruct w; simpl in *; now subst.
  - unfold bind, Write. rewrite Hw, IH by reflexivity. cbn [output].
    now rewrite app_assoc.
Qed.

Lemma writeAll_prefix (ps : list (list byte)) (w : Writer) :
  exists k,
    output (fst (writeAll ps w)) = output w ++ firstn k (List.concat ps)
    /\ (snd (writeAll ps w) = inr tt ->
        output (fst (writeAll ps w)) = output w ++ List.concat ps)
    /\ (forall e, snd (writeAll ps w) = inl e -> e = ErrShortWrite).
Proof.
  revert w. induction ps as [|p ps IH]; intros w; cbn [writeAll List.concat].
  - exists 0%nat. unfold ret. simpl. rewrite app_nil_r.
    repeat split; auto; discriminate.
  - unfold bind. unfold Write. destruct (room w) as [c|].
    + destruct (_ <=? _)%nat eqn:E.
      * destruct (IH {| output := output w ++ p;
                        room := Some (c - List.length p)%nat |})
          as (k & H1 & H2 & H3).
        cbn [output] in *. exists (List.length p + k)%nat.
        split; [|split; [|exact H3]].
        -- now rewrite H1, firstn_app_2, app_assoc.
        -- intros H. now rewrite (H2 H), app_assoc.
      * apply Nat.leb_gt in E. exists c. cbn [fst snd output].
        rewrite firstn_app. replace (c - List.length p)%nat with 0%nat by lia.
        rewrite firstn_O, app_nil_r.
        split; [reflexivity|]. split; [discriminate|]. now intros e [= <-].
    + destruct (IH {| output := output w ++ p; room := None |})
        as (k & H1 & H2 & H3).
      cbn [output] in *. exists (List.length p + k)%nat.
      split; [|split; [|exact H3]].
      * now rewrite H1, firstn_app_2, app_assoc.
      * intros H. now rewrite (H2 H), app_assoc.
Qed.

Lemma bind_ret_tt {S} (c : io S unit) (s : S) : (c ;;; ret tt) s = c s.
Proof. unfold bind, ret. destruct (c s) as [s' [e|[]]]; reflexivity. Qed.

Lemma bind_ext {S A B} (c : io S A) (k k' : A -> io S B) (s : S) :
  (forall a s1, k a s1 = k' a s1) -> bind c k s = bind c k' s.
Proof.
  intros H. unfold bind. destruct (c s) as [s1 [e|a]]; [reflexivity | apply H].
Qed.

(** The writes of [WriteMessage] are the five parts of the frame, in the
    order of the frame. *)
Lemma frame_writes (m l : Z) (c sum payload : list byte) (w : Writer) :
  (writeUint32 m ;;; writeBytes c ;;; writeUint32 l ;;; writeBytes sum ;;;
   Write payload) w
  = writeAll [le_split 4 m; c; le_split 4 l; sum; payload] w.
Proof.
  cbn [writeAll]. unfold writeUint32, writeBytes.
  do 4 (apply bind_ext; intros _ ?). now rewrite bind_ret_tt.
Qed.

(** C5.  [WriteMessage] checks, in this order, that the command has at most
    12 bytes, that the payload encodes, that the encoded payload has at most
    32 MiB, and that it has at most the maximum of the message type; each
    clause below assumes only that the checks before it passed.  When a check
    fails the sink is returned as it was given: nothing was written.  When
    all pass, what reaches the sink is the frame (network id, command,
    length, checksum, then the payload) or, when a write fails, a part of the
    frame from its start, with the error of the write. *)
Theorem WriteMessage_checks_then_writes
    {T : Type} {M : Message T} (w : Writer) (msg : T) (pver btcnet : Z) :
  let cmd := Command msg in
  let enc := BtcEncode msg emptyBuffer pver in
  let payload := output (fst enc) in
  let mpl := MaxPayloadLength msg pver in
  let frame :=
    frameBytes btcnet cmd (copyInto 4 (firstn 4 (DoubleSha256 payload)))
      payload in
  let result := WriteMessage w msg pver btcnet in
  (12 < strlen cmd ->
   result = (w, inl (MessageError "WriteMessage" (DescCommandTooLong cmd 12))))
  /\ (strlen cmd <= 12 ->
      forall err, snd enc = inl err -> result = (w, inl err))
  /\ (strlen cmd <= 12 -> snd enc = inr tt ->
      33554432 < len payload ->
      result = (w, inl (MessageError "WriteMessage"
                          (DescEncodedTooLarge (len payload) 33554432))))
  /\ (strlen cmd <= 12 -> snd enc = inr tt ->
      len payload <= 33554432 ->
      mpl < len payload ->
      result = (w, inl (MessageError "WriteMessage"
                          (DescEncodedTooLargeForType (len payload) cmd mpl))))
  /\ (strlen cmd <= 12 -> snd enc = inr tt ->
      len payload <= 33554432 ->
      len payload <= mpl ->
      (exists k, output (fst result) = output w ++ firstn k frame)
      /\ (snd result = inr tt -> output (fst result) = output w ++ frame)
      /\ (forall e, snd result = inl e -> e = ErrShortWrite)
      /\ (room w = None ->
          result = ({| output := output w ++ frame; room := None |}, inr tt))).
Proof.
  intros cmd enc payload mpl frame result.
  subst result. unfold WriteMessage. fold cmd. fold enc.
  change commandSize with 12. change maxMessagePayload with 33554432.
  repeat match goal with |- _ /\ _ => split end.
  - intros H. apply Z.ltb_lt in H. now rewrite H.
  - intros H err He. apply Z.ltb_ge in H. rewrite H.
    destruct enc as [bw res]. cbn [snd] in He. now subst res.
  - intros H He Hl. apply Z.ltb_ge in H. rewrite H.
    subst payload. destruct enc as [bw res]. cbn [snd fst] in *. subst res.
    apply Z.ltb_lt in Hl. now rewrite Hl.
  - intros H He Hl Hm. apply Z.ltb_ge in H. rewrite H.
    subst payload mpl. destruct enc as [bw res]. cbn [snd fst] in *. subst res.
    assert (Hu : uint32 (len (output bw)) = len (output bw)).
    { unfold uint32. apply Z.mod_small. unfold len in *. lia. }
    apply Z.ltb_ge in Hl. rewrite Hl, Hu.
    apply Z.ltb_lt in Hm. now rewrite Hm.
  - intros H He Hl Hm. apply Z.ltb_ge in H. rewrite H.
    subst frame payload mpl. destruct enc as [bw res].
    cbn [snd fst] in *. subst res.
    assert (Hu : uint32 (len (output bw)) = len (output bw)).
    { unfold uint32. apply Z.mod_small. unfold len in *. lia. }
    apply Z.ltb_ge in Hl, Hm. rewrite Hl, Hu, Hm.
    cbn [magic length checksum]. rewrite frame_writes.
    set (ps := [_; _; _; _; _]).
    assert (Hf : frameBytes btcnet cmd
                   (copyInto 4 (firstn 4 (DoubleSha256 (output bw))))
                   (output bw) = List.concat ps).
    { unfold frameBytes, ps. cbn [List.concat]. now rewrite app_nil_r. }
    rewrite Hf.
    destruct (writeAll_prefix ps w) as (k & H1 & H2 & H3).
    repeat match goal with |- _ /\ _ => split end; eauto.
    intros Hw. now apply writeAll_unbounded.
Qed.

(** *** The primitive codec *)

Lemma reading_ret {A} (a : A) : reading (ret a) [] a.
Proof. intros r rest H. exists r. split; [reflexivity | exact H]. Qed.

Lemma reading_bind {A B} (c : io Reader A) (k : A -> io Reader B)
    (bs bs' : list byte) (a : A) (b : B) :
  reading c bs a -> reading (k a) bs' b -> reading (bind c k) (bs ++ bs') b.
Proof.
  intros Hc Hk r rest H. rewrite <- app_assoc in H.
  destruct (Hc r _ H) as (r1 & E1 & I1).
  destruct (Hk r1 _ I1) as (r2 & E2 & I2).
  exists r2. split; [|exact I2]. unfold bind. now rewrite E1.
Qed.

Lemma reading_ReadFull (n : Z) (bs : list byte) :
  len bs = n -> reading (ReadFull n) bs bs.
Proof.
  intros Hl r rest H. rewrite (ReadFull_app n r bs rest H Hl).
  eexists. split; reflexivity.
Qed.

Lemma reading_make (n : Z) : reading (make n) [] tt.
Proof. intros r rest H. eexists. split; [reflexivity | exact H]. Qed.

Lemma len_le_split (n : nat) (v : Z) : len (le_split n v) = Z.of_nat n.
Proof. unfold len. now rewrite length_le_split. Qed.

Lemma reading_unsigned (n : nat) (v : Z) :
  0 <= v < 2 ^ (Z.of_nat n * 8) ->
  reading (b <- ReadFull (Z.of_nat n) ;; ret (le_combine b)) (le_split n v) v.
Proof.
  intros Hv. rewrite <- (app_nil_r (le_split n v)).
  eapply reading_bind; [apply reading_ReadFull, len_le_split|].
  rewrite le_combine_split, Z.mod_small by exact Hv. apply reading_ret.
Qed.

Lemma reading_readUint32 (v : Z) :
  is_uint32 v -> reading readUint32 (le_split 4 v) v.
Proof. intros H. now apply (reading_unsigned 4). Qed.

Lemma reading_readUint64 (v : Z) :
  is_uint64 v -> reading readUint64 (le_split 8 v) v.
Proof. intros H. now apply (reading_unsigned 8). Qed.

Lemma reading_readInt32 (v : Z) :
  is_int32 v -> reading readInt32 (le_split 4 v) v.
Proof.
  intros Hv. unfold readInt32. rewrite <- (app_nil_r (le_split 4 v)).
  eapply reading_bind; [apply reading_ReadFull, (len_le_split 4)|].
  rewrite le_combine_split.
  replace (int32 _) with v; [apply reading_ret|].
  unfold int32, is_int32 in *. change (Z.of_nat 4 * 8) with 32.
  rewrite Zplus_mod_idemp_l, Z.mod_small; lia.
Qed.

Lemma reading_readInt64 (v : Z) :
  is_int64 v -> reading readInt64 (le_split 8 v) v.
Proof.
  intros Hv. unfold readInt64. rewrite <- (app_nil_r (le_split 8 v)).
  eapply reading_bind; [apply reading_ReadFull, (len_le_split 8)|].
  rewrite le_combine_split.
  replace (int64 _) with v; [apply reading_ret|].
  unfold int64, is_int64 in *. change (Z.of_nat 8 * 8) with 64.
  rewrite Zplus_mod_idemp_l, Z.mod_small; lia.
Qed.

Lemma reading_readVarInt (pver v : Z) :
  is_uint64 v -> reading (readVarInt pver) (varIntBytes v) v.
Proof.
  intros Hv. unfold is_uint64 in Hv. unfold readVarInt, varIntBytes.
  assert (Hd : forall d, 0 <= d < 256 -> le_combine [byte.of_Z d] = d).
  { intros d Hd. change [byte.of_Z d] with (le_split 1 d).
    rewrite le_combine_split. apply Z.mod_small. exact Hd. }
  destruct (v <? 253) eqn:E1; [apply Z.ltb_lt in E1 | apply Z.ltb_ge in E1].
  { rewrite <- (app_nil_r [byte.of_Z v]).
    eapply reading_bind; [now apply reading_ReadFull|].
    rewrite Hd by lia.
    repeat match goal with
           | |- context [v =? ?c] =>
               destruct (Z.eqb_spec v c); [lia|]
           end.
    apply reading_ret. }
  destruct (v <=? 65535) eqn:E2; [apply Z.leb_le in E2 | apply Z.leb_gt in E2].
  { change (byte.of_Z 253 :: le_split 2 v) with ([byte.of_Z 253] ++ le_split 2 v).
    eapply reading_bind; [now apply reading_ReadFull|].
    rewrite Hd by lia. cbn [Z.eqb Pos.eqb].
    apply (reading_unsigned 2). change (2 ^ (Z.of_nat 2 * 8)) with 65536. lia. }
  destruct (v <=? 4294967295) eqn:E3;
    [apply Z.leb_le in E3 | apply Z.leb_gt in E3].
  { change (byte.of_Z 254 :: le_split 4 v) with ([byte.of_Z 254] ++ le_split 4 v).
    eapply reading_bind; [now apply reading_ReadFull|].
    rewrite Hd by lia. cbn [Z.eqb Pos.eqb].
    apply (reading_unsigned 4).
    change (2 ^ (Z.of_nat 4 * 8)) with 4294967296. lia. }
  change (byte.of_Z 255 :: le_split 8 v) with ([byte.of_Z 255] ++ le_split 8 v).
  eapply reading_bind; [now apply reading_ReadFull|].
  rewrite Hd by lia. cbn [Z.eqb Pos.eqb].
  apply (reading_unsigned 8). exact Hv.
Qed.

Lemma len_bytes_of (s : string) : len (bytes_of s) = strlen s.
Proof.
  unfold len, strlen, bytes_of, list_byte_of_string. rewrite length_map.
  f_equal. induction s as [|c s IH]; simpl; congruence.
Qed.

Lemma reading_readVarString (pver : Z) (s : string) :
  is_uint64 (strlen s) ->
  reading (readVarString pver) (varIntBytes (strlen s) ++ bytes_of s) s.
Proof.
  intros Hs. unfold readVarString.
  eapply reading_bind; [now apply reading_readVarInt|].
  change (bytes_of s) with ([] ++ bytes_of s).
  eapply reading_bind; [apply reading_make|].
  rewrite <- (app_nil_r (bytes_of s)).
  eapply reading_bind; [apply reading_ReadFull, len_bytes_of|].
  unfold string_of, bytes_of. rewrite string_of_list_byte_of_string.
  apply reading_ret.
Qed.

Lemma writing_Write (p : list byte) : writing (Write p) p.
Proof. intros w Hw. unfold Write. now rewrite Hw. Qed.

Lemma writing_bind (c k : io Writer unit) (a b : list byte) :
  writing c a -> writing k b -> writing (c ;;; k) (a ++ b).
Proof.
  intros Hc Hk w Hw. unfold bind. rewrite (Hc w Hw).
  rewrite Hk by reflexivity. cbn [output]. now rewrite app_assoc.
Qed.

(** *** MsgVersion: the services *)

Lemma land_eq_iff (a s : Z) :
  Z.land a s = s <->
  forall i, Z.testbit s i = true -> Z.testbit a i = true.
Proof.
  split.
  - intros H i Hi. rewrite <- H, Z.land_spec in Hi.
    now apply andb_true_iff in Hi.
  - intros H. apply Z.bits_inj'. intros n _. rewrite Z.land_spec.
    destruct (Z.testbit s n) eqn:E.
    + now rewrite (H n E).
    + apply andb_false_r.
Qed.

(** C10.  After [AddService(s)], [HasService(s)] is true; [HasService(s)]
    is true exactly when every bit of [s] is set in the services of the
    message; and [AddService] sets the services to the bitwise or and leaves
    the other seven fields as they were. *)
Theorem AddService_HasService (msg : MsgVersion) (service : Z) :
  HasService (AddService msg service) service = true
  /\ (HasService msg service = true <->
      forall i, Z.testbit service i = true ->
                Z.testbit (Services msg) i = true)
  /\ AddService msg service =
       mkMsgVersion (ProtocolVersion msg) (Z.lor (Services msg) service)
         (Timestamp msg) (AddrYou msg) (AddrMe msg) (Nonce msg)
         (UserAgent msg) (LastBlock msg).
Proof.
  split; [|split; [|reflexivity]].
  - unfold HasService, AddService, set_Services. cbn [Services].
    replace (Z.land (Z.lor (Services msg) service) service) with service.
    + now rewrite Z.eqb_refl.
    + symmetry. apply land_eq_iff. intros i Hi. rewrite Z.lor_spec, Hi.
      apply orb_true_r.
  - unfold HasService. rewrite <- land_eq_iff.
    destruct (Z.eqb_spec (Z.land (Services msg) service) service);
      split; congruence.
Qed.

(** *** MsgVersion: the codec *)

Lemma decoding_bind {A B} (c : io (Reader * MsgVersion) A)
    (k : A -> io (Reader * MsgVersion) B) (bs bs' : list byte)
    (f g : MsgVersion -> MsgVersion) (a : A) (res : error + B) :
  decoding c bs f (inr a) ->
  decoding (k a) bs' g res ->
  decoding (bind c k) (bs ++ bs') (fun m => g (f m)) res.
Proof.
  intros Hc Hk r m rest H. rewrite <- app_assoc in H.
  destruct (Hc r m _ H) as (r1 & E1 & I1).
  destruct (Hk r1 (f m) _ I1) as (r2 & E2 & I2).
  exists r2. split; [|exact I2]. unfold bind. now rewrite E1.
Qed.

Lemma decoding_onReader {A} (c : io Reader A) (bs : list byte) (a : A) :
  reading c bs a -> decoding (onReader c) bs (fun m => m) (inr a).
Proof.
  intros Hc r m rest H. destruct (Hc r rest H) as (r1 & E1 & I1).
  exists r1. split; [|exact I1]. unfold onReader. cbn [fst snd]. now rewrite E1.
Qed.

Lemma decoding_store (f : MsgVersion -> MsgVersion) :
  decoding (store f) [] f (inr tt).
Proof. intros r m rest H. exists r. split; [reflexivity | exact H]. Qed.

Lemma decoding_fail {A} (e : error) :
  decoding (@fail _ A e) [] (fun m => m) (inl e).
Proof. intros r m rest H. exists r. split; [reflexivity | exact H]. Qed.

Lemma decoding_readNetAddressInto (pver : Z) (na : NetAddress)
    (bs : list byte) (field : MsgVersion -> NetAddress)
    (assign : NetAddress -> MsgVersion -> MsgVersion) :
  NetAddress_wire pver na bs ->
  decoding (readNetAddressInto pver field assign false) bs (assign na) (inr tt).
Proof.
  intros (_ & Hr & _) r m rest H.
  destruct (Hr r (field m) rest H) as (r1 & E1 & I1).
  exists r1. split; [|exact I1].
  unfold readNetAddressInto. cbn [fst snd]. now rewrite E1.
Qed.

Lemma decoding_ext {A} (c : io (Reader * MsgVersion) A) (bs bs' : list byte)
    (f g : MsgVersion -> MsgVersion) (res : error + A) :
  decoding c bs f res -> bs = bs' -> (forall m, f m = g m) ->
  decoding c bs' g res.
Proof.
  intros Hc <- Hfg r m rest H. destruct (Hc r m rest H) as (r1 & E1 & I1).
  exists r1. now rewrite <- Hfg.
Qed.

Ltac decode_read lem :=
  eapply decoding_bind; [apply decoding_onReader, lem; assumption|].

Ltac decode_store :=
  eapply (decoding_bind _ _ []); [apply decoding_store|].

(** The fields before the user agent, read from their bytes: the rest of
    the decoding goes on with [k]. *)
Lemma MsgVersion_decode_to_user_agent (pver : Z) (msg : MsgVersion)
    (you me tail : list byte) (g : MsgVersion -> MsgVersion)
    (res : error + unit) :
  well_typed msg ->
  is_uint64 (strlen (UserAgent msg)) ->
  NetAddress_wire pver (AddrYou msg) you ->
  NetAddress_wire pver (AddrMe msg) me ->
  decoding
    (if MaxUserAgentLen <? strlen (UserAgent msg) then
       fail (messageError "MsgVersion.BtcDecode"
               (DescUserAgentTooLong (strlen (UserAgent msg)) MaxUserAgentLen))
     else
       store (set_UserAgent (UserAgent msg)) ;;;
       l <- onReader readInt32 ;;
       store (set_LastBlock l))
    tail g res ->
  decoding (MsgVersion_decode pver)
    (le_split 4 (ProtocolVersion msg)
     ++ le_split 8 (Services msg)
     ++ le_split 8 (Time_Unix (Timestamp msg))
     ++ you ++ me
     ++ le_split 8 (Nonce msg)
     ++ (varIntBytes (strlen (UserAgent msg)) ++ bytes_of (UserAgent msg))
     ++ tail)
    (fun m =>
       g (set_Nonce (Nonce msg)
            (set_AddrMe (AddrMe msg)
               (set_AddrYou (AddrYou msg)
                  (set_Timestamp (time_Unix (Time_Unix (Timestamp msg)) 0)
                     (set_Services (Services msg)
                        (set_ProtocolVersion (ProtocolVersion msg) m)))))))
    res.
Proof.
  intros (Hpv & Hsv & Hts & Hno & Hlb) Hua Hyou Hme Hk.
  unfold MsgVersion_decode.
  eapply decoding_ext.
  - decode_read (reading_readInt32 (ProtocolVersion msg)). decode_store.
    decode_read (reading_readUint64 (Services msg)). decode_store.
    decode_read (reading_readInt64 (Time_Unix (Timestamp msg))). decode_store.
    eapply decoding_bind; [apply decoding_readNetAddressInto, Hyou|].
    eapply decoding_bind; [apply decoding_readNetAddressInto, Hme|].
    decode_read (reading_readUint64 (Nonce msg)). decode_store.
    decode_read (reading_readVarString pver (UserAgent msg)).
    exact Hk.
  - reflexivity.
  - intros m. reflexivity.
Qed.

(** A message whose user agent is within the limit decodes from its bytes,
    whatever the message was that is decoded into; the time comes back
    without nanoseconds. *)
Lemma MsgVersion_decode_versionBytes (pver : Z) (msg : MsgVersion)
    (you me : list byte) :
  well_typed msg ->
  strlen (UserAgent msg) <= MaxUserAgentLen ->
  NetAddress_wire pver (AddrYou msg) you ->
  NetAddress_wire pver (AddrMe msg) me ->
  decoding (MsgVersion_decode pver) (versionBytes msg you me)
    (fun _ => toSeconds msg) (inr tt).
Proof.
  intros Hwt Hua Hyou Hme.
  assert (Hlb : is_int32 (LastBlock msg)) by apply Hwt.
  eapply decoding_ext.
  - apply (MsgVersion_decode_to_user_agent pver msg you me); try assumption.
    + unfold is_uint64, MaxUserAgentLen, strlen in *. lia.
    + apply Z.ltb_ge in Hua. rewrite Hua.
      decode_store. decode_read (reading_readInt32 (LastBlock msg)).
      apply decoding_store.
  - unfold versionBytes. now rewrite app_nil_r.
  - intros m. unfold toSeconds. now destruct msg.
Qed.

(** What encoding writes into a buffer. *)
Lemma MsgVersion_encode_versionBytes (pver : Z) (msg : MsgVersion)
    (you me : list byte) :
  strlen (UserAgent msg) <= MaxUserAgentLen ->
  NetAddress_wire pver (AddrYou msg) you ->
  NetAddress_wire pver (AddrMe msg) me ->
  writing (fun w => MsgVersion_BtcEncode msg w pver) (versionBytes msg you me).
Proof.
  intros Hua (Hyou & _) (Hme & _) w Hw. unfold MsgVersion_BtcEncode.
  apply Z.ltb_ge in Hua. rewrite Hua.
  assert (Hl : uint64 (strlen (UserAgent msg)) = strlen (UserAgent msg)).
  { apply Z.ltb_ge in Hua. unfold uint64, MaxUserAgentLen, strlen in *.
    apply Z.mod_small. lia. }
  unfold versionBytes, writeVarString, writeVarInt. rewrite Hl.
  revert w Hw. refine (_ : writing _ _).
  do 6 (apply writing_bind; [first [apply writing_Write | assumption]|]).
  apply writing_bind; [apply writing_bind|]; apply writing_Write.
Qed.

Lemma toSeconds_fields (msg : MsgVersion) :
  is_int64 (Time_Unix (Timestamp msg)) ->
  toSeconds msg =
    mkMsgVersion (ProtocolVersion msg) (Services msg)
      (mkTime (unixSec (Timestamp msg)) 0)
      (AddrYou msg) (AddrMe msg) (Nonce msg) (UserAgent msg) (LastBlock msg).
Proof.
  intros H. unfold toSeconds, set_Timestamp, time_Unix, Time_Unix in *.
  f_equal. f_equal. unfold int64, is_int64 in *.
  change (0 / 1000000000) with 0. rewrite Z.add_0_r, Z.mod_small; lia.
Qed.

(** C4.  A version message whose fields hold values of their types, whose
    user agent is within the limit and whose two address records the address
    codec can carry, encodes into a buffer as the fields in their order, and
    decoding these bytes (at the same protocol version, into any message)
    consumes them all and gives the message back with every field as it
    was, except that the time has no part below the second: a message whose
    time has none comes back equal. *)
Theorem MsgVersion_roundtrip (pver : Z) (msg : MsgVersion)
    (you me : list byte) :
  well_typed msg ->
  strlen (UserAgent msg) <= MaxUserAgentLen ->
  NetAddress_wire pver (AddrYou msg) you ->
  NetAddress_wire pver (AddrMe msg) me ->
  let payload := versionBytes msg you me in
  let decoded :=
    mkMsgVersion (ProtocolVersion msg) (Services msg)
      (mkTime (unixSec (Timestamp msg)) 0)
      (AddrYou msg) (AddrMe msg) (Nonce msg) (UserAgent msg) (LastBlock msg) in
  MsgVersion_BtcEncode msg emptyBuffer pver =
    ({| output := payload; room := None |}, inr tt)
  /\ (forall into, exists r',
        MsgVersion_BtcDecode into (NewBuffer payload) pver
          = (r', decoded, None)
        /\ input r' = [])
  /\ (nanos (Timestamp msg) = 0 -> decoded = msg).
Proof.
  intros Hwt Hua Hyou Hme payload decoded. split; [|split].
  - now rewrite (MsgVersion_encode_versionBytes pver msg you me Hua Hyou Hme).
  - intros into.
    destruct (MsgVersion_decode_versionBytes pver msg you me Hwt Hua Hyou Hme
                (NewBuffer payload) into [])
      as (r' & E & I).
    + cbn [NewBuffer input]. now rewrite app_nil_r.
    + exists r'. split; [|exact I].
      unfold MsgVersion_BtcDecode. rewrite E. cbn [fst snd].
      rewrite toSeconds_fields by apply Hwt. reflexivity.
  - intros Hn. subst decoded. destruct msg as [? ? [sec ns] ? ? ? ? ?].
    cbn in *. now subst ns.
Qed.

(** C6.  A user agent of more than 2000 bytes makes [BtcEncode] return its
    error with the sink as it was given, whatever the sink; and it makes
    [BtcDecode] return its error on a payload that is the payload of a
    version message in every other respect, leaving the user agent of the
    message that is decoded into as it was. *)
Theorem MsgVersion_user_agent_too_long :
  (forall (msg : MsgVersion) (w : Writer) (pver : Z),
      MaxUserAgentLen < strlen (UserAgent msg) ->
      MsgVersion_BtcEncode msg w pver =
        (w, inl (MessageError "MsgVersion.BtcEncode"
                   (DescUserAgentTooLong (strlen (UserAgent msg)) 2000))))
  /\ (forall (msg : MsgVersion) (you me : list byte) (pver : Z)
        (into : MsgVersion) (r : Reader) (rest : list byte),
        well_typed msg ->
        is_uint64 (strlen (UserAgent msg)) ->
        NetAddress_wire pver (AddrYou msg) you ->
        NetAddress_wire pver (AddrMe msg) me ->
        MaxUserAgentLen < strlen (UserAgent msg) ->
        input r = versionBytes msg you me ++ rest ->
        exists r' m',
          MsgVersion_BtcDecode into r pver =
            (r', m', Some (MessageError "MsgVersion.BtcDecode"
                             (DescUserAgentTooLong (strlen (UserAgent msg))
                                2000)))
          /\ UserAgent m' = UserAgent into).
Proof.
  split.
  - intros msg w pver H. unfold MsgVersion_BtcEncode.
    apply Z.ltb_lt in H. now rewrite H.
  - intros msg you me pver into r rest Hwt Hu Hyou Hme Hua Hi.
    apply Z.ltb_lt in Hua.
    destruct (MsgVersion_decode_to_user_agent pver msg you me []
                (fun m => m)
                (inl (MessageError "MsgVersion.BtcDecode"
                        (DescUserAgentTooLong (strlen (UserAgent msg)) 2000)))
                Hwt Hu Hyou Hme) with (r := r) (m := into)
                (rest := le_split 4 (LastBlock msg) ++ rest)
      as (r' & E & _).
    + rewrite Hua. apply decoding_fail.
    + rewrite Hi. unfold versionBytes. now rewrite <- !app_assoc.
    + eexists. eexists. unfold MsgVersion_BtcDecode. rewrite E.
      split; reflexivity.
Qed.

Lemma len_app {A} (a b : list A) : len (a ++ b) = len a + len b.
Proof. unfold len. rewrite length_app. lia. Qed.

Lemma len_varIntBytes (v : Z) : 1 <= len (varIntBytes v) <= maxVarIntPayload.
Proof.
  unfold varIntBytes, maxVarIntPayload, len.
  destruct (v <? 253); [simpl; lia|].
  destruct (v <=? 65535); [cbn [List.length]; rewrite length_le_split; lia|].
  destruct (v <=? 4294967295); cbn [List.length]; rewrite length_le_split; lia.
Qed.







End Properties.

(** ** The reference package *)

Lemma writing_ret : writing (ret tt) [].
Proof.
  intros w Hw. unfold ret. rewrite app_nil_r. destruct w; simpl in *. now subst.
Qed.

(** The address codec of the reference package carries every record that
    has no time stamp, a 16-byte address and a port of 16 bits, in 26 bytes. *)
Lemma Reference_wire (pver : Z) (na : Reference.NetAddr) :
  Reference.naTimestamp na = mkTime 0 0 ->
  is_uint64 (Reference.naServices na) ->
  List.length (Reference.naIP na) = 16%nat ->
  is_uint16 (Reference.naPort na) ->
  @NetAddress_wire Reference.package pver na
    (le_split 8 (Reference.naServices na) ++ Reference.naIP na
     ++ rev (le_split 2 (Reference.naPort na))).
Proof.
  intros Ht Hs Hi Hp. destruct na as [t sv ip port]. cbn in Ht, Hs, Hi, Hp.
  subst t. cbn [Reference.naServices Reference.naIP Reference.naPort].
  split; [|split].
  - cbn [writeNetAddress Reference.package]. unfold Reference.write.
    cbn [andb Reference.naServices Reference.naIP Reference.naPort].
    refine (_ : writing _ _).
    change (le_split 8 sv ++ ip ++ rev (le_split 2 port))
      with ([] ++ le_split 8 sv ++ ip ++ rev (le_split 2 port)).
    apply writing_bind; [apply writing_ret|].
    apply writing_bind; [apply writing_Write|].
    apply writing_bind; [|apply writing_Write].
    unfold writeBytes, copyInto.
    rewrite firstn_all2, Hi, Nat.sub_diag, app_nil_r by lia.
    apply writing_Write.
  - intros r na0 rest H.
    cbn [readNetAddress Reference.package]. unfold Reference.read.
    cbn [andb].
    match goal with
    | |- context [match ?c r with _ => _ end] =>
        assert (Hc : reading c (le_split 8 sv ++ ip ++ rev (le_split 2 port))
                       (Reference.mkNetAddr (mkTime 0 0) sv ip port))
    end.
    { change (le_split 8 sv ++ ip ++ rev (le_split 2 port))
        with ([] ++ le_split 8 sv ++ ip ++ rev (le_split 2 port)).
      eapply reading_bind; [apply reading_ret|].
      eapply reading_bind; [now apply reading_readUint64|].
      eapply reading_bind;
        [apply reading_ReadFull; unfold len; rewrite Hi; reflexivity|].
      rewrite <- (app_nil_r (rev (le_split 2 port))).
      eapply reading_bind;
        [apply reading_ReadFull; unfold len;
         rewrite length_rev, length_le_split; reflexivity|].
      rewrite rev_involutive, le_combine_split, Z.mod_small by exact Hp.
      apply reading_ret. }
    destruct (Hc r rest H) as (r' & E & I). rewrite E. eauto.
  - rewrite !len_app, len_le_split. unfold len.
    rewrite Hi, length_rev, length_le_split.
    cbn [maxNetAddressPayload Reference.package]. unfold Reference.maxPayload.
    destruct (_ <=? _); lia.
Qed.

Lemma localhost_wire (pver : Z) :
  @NetAddress_wire Reference.package pver Example.localhost
    Example.localhostBytes.
Proof.
  apply (Reference_wire pver Example.localhost); try reflexivity;
    unfold is_uint64, is_uint16; cbn; lia.
Qed.

Lemma version_well_typed (n : Z) :
  is_uint64 n -> well_typed (Example.version n).
Proof.
  intros Hn. unfold well_typed, is_int32, is_uint64, is_int64. cbn.
  unfold is_uint64 in Hn. lia.
Qed.

(** ** The theorems at work *)

Ltac evaluated :=
  vm_compute;
  repeat match goal with |- _ /\ _ => split end;
  first [reflexivity | discriminate | intro; discriminate].

(** A header that declares 32 MiB and one byte is refused with the three
    bytes behind it left in the stream. *)
Lemma ReadMessage_header_too_large_witness :
  @ReadMessage Reference.package
    (NewBuffer (Example.header Example.mainNet "version" 33554433
                  Example.zeros4 ++ [Byte.x01; Byte.x02; Byte.x03]))
    70001 Example.mainNet
  = ({| input := [Byte.x01; Byte.x02; Byte.x03];
        reads := [4; 12; 4; 4];
        allocs := [] |},
     inl (MessageError "ReadMessage" (DescHeaderTooLarge 33554433 33554432))).
Proof.
  refine (proj1 (@ReadMessage_header_too_large Reference.package
                   _ 70001 Example.mainNet
                   {| input := [Byte.x01; Byte.x02; Byte.x03];
                      reads := [4; 12; 4; 4];
                      allocs := [] |}
                   {| magic := Example.mainNet;
                      command := "version";
                      length := 33554433;
                      checksum := Example.zeros4 |} _ _)); evaluated.
Defined.

(** A header of the test network, read for the main network: the three
    bytes it declares are drained, the two behind them stay. *)
Lemma ReadMessage_rejects_after_discard_witness :
  @ReadMessage Reference.package
    (NewBuffer (Example.header Example.testNet3 "version" 3 Example.zeros4
                ++ [Byte.x01; Byte.x02; Byte.x03; Byte.x04; Byte.x05]))
    70001 Example.mainNet
  = ({| input := [Byte.x04; Byte.x05];
        reads := [4; 12; 4; 4; 3];
        allocs := [10240; 3] |},
     inl (MessageError "ReadMessage" (DescOtherNetwork Example.testNet3))).
Proof.
  refine (proj1 (proj1 (@ReadMessage_rejects_after_discard Reference.package
                   _ 70001 Example.mainNet
                   {| input := [Byte.x01; Byte.x02; Byte.x03; Byte.x04;
                                Byte.x05];
                      reads := [4; 12; 4; 4];
                      allocs := [] |}
                   {| magic := Example.testNet3;
                      command := "version";
                      length := 3;
                      checksum := Example.zeros4 |} _) _) _); evaluated.
Defined.

(** A header with a command that is not known: the same. *)
Lemma makeEmptyMessage_registry_witness :
  @ReadMessage Reference.package
    (NewBuffer (Example.header Example.mainNet "bogus" 3 Example.zeros4
                ++ [Byte.x01; Byte.x02; Byte.x03; Byte.x04; Byte.x05]))
    70001 Example.mainNet
  = ({| input := [Byte.x04; Byte.x05];
        reads := [4; 12; 4; 4; 3];
        allocs := [10240; 3] |},
     inl (MessageError "ReadMessage" (DescUnhandledCommand "bogus"))).
Proof.
  refine (proj2 (proj2 (proj2 (@makeEmptyMessage_registry Reference.package)))
            _ 70001 Example.mainNet
            {| input := [Byte.x01; Byte.x02; Byte.x03; Byte.x04; Byte.x05];
               reads := [4; 12; 4; 4];
               allocs := [] |}
            {| magic := Example.mainNet;
               command := "bogus";
               length := 3;
               checksum := Example.zeros4 |} _ _ _ _ _);
    try evaluated.
  unfold knownCommands. simpl. intuition discriminate.
Defined.

(** A version message behind a header whose checksum is four zero bytes. *)
Lemma ReadMessage_checksum_mismatch_witness :
  @ReadMessage Reference.package
    (NewBuffer (Example.header Example.mainNet "version" 97 Example.zeros4
                ++ Example.payload Example.nonce))
    70001 Example.mainNet
  = ({| input := []; reads := [4; 12; 4; 4; 97]; allocs := [97] |},
     inl (MessageError "ReadMessage"
            (DescChecksumFailed Example.zeros4
               (firstn 4 (Sha256.DoubleSha256
                            (Example.payload Example.nonce)))))).
Proof.
  refine (eq_trans
            (@ReadMessage_checksum_mismatch Reference.package
               _ 70001 Example.mainNet
               {| input := Example.payload Example.nonce;
                  reads := [4; 12; 4; 4];
                  allocs := [] |}
               {| magic := Example.mainNet;
                  command := "version";
                  length := 97;
                  checksum := Example.zeros4 |}
               (asMessage (@emptyMsgVersion Reference.package))
               _ _ _ _ _ _ _ _) _);
    try reflexivity; evaluated.
Defined.

Ltac accepted sent received decoded :=
  refine (eq_trans
            (@ReadMessage_accepts Reference.package
               _ 70001 Example.mainNet
               {| input := Example.payloadOf received;
                  reads := [4; 12; 4; 4];
                  allocs := [] |}
               {| magic := Example.mainNet;
                  command := "version";
                  length := 97;
                  checksum :=
                    firstn 4 (Sha256.DoubleSha256 (Example.payloadOf sent)) |}
               (asMessage (@emptyMsgVersion Reference.package))
               {| input := [];
                  reads := [4; 8; 8; 8; 16; 2; 8; 16; 2; 8; 1; 12; 4];
                  allocs := [12] |}
               decoded
               _ _ _ _ _ _ _ _ _) _);
  [ evaluated | evaluated | evaluated | evaluated | reflexivity
  | evaluated | evaluated | evaluated | reflexivity | reflexivity ].

(** The first four bytes of the double hash do not tell the payloads of
    [bitSent] and [bitReceived] apart, which differ in one bit (the third of
    byte 72), nor the payloads of [byteSent] and [byteReceived], which differ
    in every bit of one byte (byte 74).  In both cases the stream with the
    checksum of the first and the bytes of the second is read as a version
    message. *)
Lemma ReadMessage_checksum_collision :
  (exists before after,
      Example.payloadOf Example.bitSent = before ++ Byte.xa8 :: after
      /\ Example.payloadOf Example.bitReceived = before ++ Byte.xac :: after
      /\ Z.lxor (byte.unsigned Byte.xa8) (byte.unsigned Byte.xac) = 2 ^ 2)
  /\ hex (firstn 4 (Sha256.DoubleSha256 (Example.payloadOf Example.bitSent)))
     = "414a808c"%string
  /\ @ReadMessage Reference.package
       (NewBuffer (Example.altered Example.bitSent Example.bitReceived))
       70001 Example.mainNet
     = ({| input := []; reads := [4; 12; 4; 4; 97]; allocs := [97] |},
        inr (asMessage Example.bitDecoded,
             Example.payloadOf Example.bitReceived))
  /\ (exists before after,
        Example.payloadOf Example.byteSent = before ++ Byte.xab :: after
        /\ Example.payloadOf Example.byteReceived = before ++ Byte.x54 :: after
        /\ Z.lxor (byte.unsigned Byte.xab) (byte.unsigned Byte.x54) = 255)
  /\ hex (firstn 4 (Sha256.DoubleSha256 (Example.payloadOf Example.byteSent)))
     = "ba7384d0"%string
  /\ @ReadMessage Reference.package
       (NewBuffer (Example.altered Example.byteSent Example.byteReceived))
       70001 Example.mainNet
     = ({| input := []; reads := [4; 12; 4; 4; 97]; allocs := [97] |},
        inr (asMessage Example.byteDecoded,
             Example.payloadOf Example.byteReceived)).
Proof.
  repeat match goal with |- _ /\ _ => split end.
  - exists (firstn 72 (Example.payloadOf Example.bitSent)),
           (skipn 73 (Example.payloadOf Example.bitSent)).
    repeat split; vm_compute; reflexivity.
  - vm_compute. reflexivity.
  - accepted Example.bitSent Example.bitReceived Example.bitDecoded.
  - exists (firstn 74 (Example.payloadOf Example.byteSent)),
           (skipn 75 (Example.payloadOf Example.byteSent)).
    repeat split; vm_compute; reflexivity.
  - vm_compute. reflexivity.
  - accepted Example.byteSent Example.byteReceived Example.byteDecoded.
Qed.

(** The version message of the scenario comes back from its 97 bytes with
    its time cut to the second. *)
Lemma MsgVersion_roundtrip_witness :
  let payload :=
    versionBytes (Example.version Example.nonce) Example.localhostBytes
      Example.localhostBytes in
  @MsgVersion_BtcEncode Reference.package (Example.version Example.nonce)
    emptyBuffer 70001
  = ({| output := payload; room := None |}, inr tt)
  /\ (forall into, exists r',
        @MsgVersion_BtcDecode Reference.package into (NewBuffer payload) 70001
        = (r', Example.versionDecoded Example.nonce, None)
        /\ input r' = [])
  /\ len payload = 97.
Proof.
  intros payload.
  destruct (@MsgVersion_roundtrip Reference.package 70001
              (Example.version Example.nonce)
              Example.localhostBytes Example.localhostBytes)
    as (He & Hd & _).
  - apply version_well_typed. unfold is_uint64, Example.nonce. lia.
  - evaluated.
  - apply localhost_wire.
  - apply localhost_wire.
  - split; [exact He|]. split; [exact Hd|]. vm_compute. reflexivity.
Defined.

(** The version message of the scenario is written as its frame; a message
    whose command has 13 bytes is not written. *)
Lemma WriteMessage_checks_then_writes_witness :
  @WriteMessage Reference.package _ _ emptyBuffer
    (Example.version Example.nonce) 70001 Example.mainNet
  = ({| output :=
          frameBytes Example.mainNet "version"
            (copyInto 4 (firstn 4 (Sha256.DoubleSha256
                                     (Example.payload Example.nonce))))
            (Example.payload Example.nonce);
        room := None |}, inr tt)
  /\ @WriteMessage Reference.package _ Reference.Blob_Message emptyBuffer
       Example.longCommand 70001 Example.mainNet
     = (emptyBuffer,
        inl (MessageError "WriteMessage"
               (DescCommandTooLong "averylongname" 12))).
Proof.
  split.
  - pose proof (@WriteMessage_checks_then_writes Reference.package _ _
                  emptyBuffer (Example.version Example.nonce) 70001
                  Example.mainNet) as H.
    cbv zeta in H. destruct H as (_ & _ & _ & _ & H).
    destruct H as (_ & _ & _ & H);
      [evaluated | evaluated | evaluated | evaluated |].
    refine (eq_trans (H eq_refl) _). vm_compute. reflexivity.
  - refine (proj1 (@WriteMessage_checks_then_writes Reference.package _
                     Reference.Blob_Message emptyBuffer Example.longCommand
                     70001 Example.mainNet) _).
    evaluated.
Defined.

(** A user agent of 2001 bytes is refused by both. *)
Lemma MsgVersion_user_agent_too_long_witness :
  @MsgVersion_BtcEncode Reference.package Example.versionLong emptyBuffer 70001
  = (emptyBuffer,
     inl (MessageError "MsgVersion.BtcEncode" (DescUserAgentTooLong 2001 2000)))
  /\ exists r' m',
       @MsgVersion_BtcDecode Reference.package emptyMsgVersion
         (NewBuffer (versionBytes Example.versionLong Example.localhostBytes
                       Example.localhostBytes)) 70001
       = (r', m', Some (MessageError "MsgVersion.BtcDecode"
                          (DescUserAgentTooLong 2001 2000)))
       /\ UserAgent m' = ""%string.
Proof.
  destruct (@MsgVersion_user_agent_too_long Reference.package) as (He & Hd).
  split.
  - refine (He Example.versionLong emptyBuffer 70001 _). evaluated.
  - refine (Hd Example.versionLong Example.localhostBytes
              Example.localhostBytes 70001 emptyMsgVersion
              (NewBuffer _) [] _ _
              (localhost_wire 70001) (localhost_wire 70001) _ _).
    + evaluated.
    + evaluated.
    + evaluated.
    + cbn [NewBuffer input]. symmetry. apply app_nil_r.
Defined.




(** The hash of the reference package on the vectors of the standard. *)
Lemma Sum256_vectors :
  len Sha256.K = 64
  /\ hex (Sha256.Sum256 (bytes_of "abc"))
     = "ba7816bf8f01cfea414140de5dae2223b00361a396177a9cb410ff61f20015ad"%string
  /\ hex (Sha256.Sum256 (bytes_of ""))
     = "e3b0c44298fc1c149afbf4c8996fb92427ae41e4649b934ca495991b7852b855"%string
  /\ hex (Sha256.Sum256
            (bytes_of "abcdbcdecdefdefgefghfghighijhijkijkljklmklmnlmnomnopnopq"))
     = "248d6a61d20638b8e5c026930c3e6039a33ce45964ff2167f6ecedd419db06c1"%string.
Proof. repeat split; vm_compute; reflexivity. Qed.

(** ** More of message.go: the header *)

(** A read of [n] bytes either finds them, or fails having taken what was
    there. *)
Lemma ReadFull_cases (n : Z) (r : Reader) :
  0 < n ->
  ((Z.to_nat n <= List.length (input r))%nat
   /\ ReadFull n r = (fst (ReadFull n r), inr (firstn (Z.to_nat n) (input r))))
  \/ ((List.length (input r) < Z.to_nat n)%nat
      /\ ReadFull n r =
           (fst (ReadFull n r),
            inl (match input r with [] => EOF | _ => ErrUnexpectedEOF end))
      /\ input (fst (ReadFull n r)) = []).
Proof.
  intros Hn. unfold ReadFull.
  destruct (Z.leb_spec n 0) as [H|_]; [lia|].
  destruct (Nat.leb_spec (Z.to_nat n) (List.length (input r))) as [H|H].
  - left. split; [exact H | reflexivity].
  - right. split; [exact H|]. split; [reflexivity|].
    cbn [fst input]. apply skipn_all2. lia.
Qed.

Lemma TrimRight0_zeros (k : nat) : TrimRight0 (repeat Byte.x00 k) = [].
Proof. induction k as [|k IH]; cbn [repeat TrimRight0]; [|rewrite IH]; reflexivity. Qed.

Lemma TrimRight0_app_zeros (b : list byte) (k : nat) :
  TrimRight0 (b ++ repeat Byte.x00 k) = TrimRight0 b.
Proof.
  induction b as [|x b IH]; cbn [app TrimRight0].
  - apply TrimRight0_zeros.
  - now rewrite IH.
Qed.

Lemma TrimRight0_fixed (b : list byte) :
  last b Byte.x01 <> Byte.x00 -> TrimRight0 b = b.
Proof.
  induction b as [|x b IH]; [reflexivity|].
  destruct b as [|y b].
  - cbn [last TrimRight0]. intros H.
    destruct (Byte.eqb x Byte.x00) eqn:E; [|reflexivity].
    apply Byte.byte_dec_bl in E. contradiction.
  - intros H. change (last (x :: y :: b) Byte.x01) with (last (y :: b) Byte.x01) in H.
    change (TrimRight0 (x :: y :: b))
      with (match TrimRight0 (y :: b) with
            | [] => if Byte.eqb x Byte.x00 then [] else [x]
            | t' => x :: t'
            end).
    now rewrite (IH H).
Qed.

Lemma TrimRight0_last (b : list byte) :
  last (TrimRight0 b) Byte.x01 <> Byte.x00.
Proof.
  induction b as [|x b IH]; cbn [TrimRight0]; [discriminate|].
  destruct (TrimRight0 b) as [|y t] eqn:E.
  - destruct (Byte.eqb x Byte.x00) eqn:F; [discriminate|].
    cbn [last]. intros ->. discriminate.
  - exact IH.
Qed.

Lemma TrimRight0_length (b : list byte) :
  (List.length (TrimRight0 b) <= List.length b)%nat.
Proof.
  induction b as [|x b IH]; cbn [TrimRight0 List.length]; [lia|].
  destruct (TrimRight0 b) as [|y t].
  - destruct (Byte.eqb x Byte.x00); cbn [List.length]; lia.
  - cbn [List.length] in *. lia.
Qed.

Lemma strlen_string_of (b : list byte) : strlen (string_of b) = len b.
Proof.
  rewrite <- len_bytes_of. unfold bytes_of, string_of.
  now rewrite list_byte_of_string_of_list_byte.
Qed.

Lemma len_copyInto (n : nat) (b : list byte) : len (copyInto n b) = Z.of_nat n.
Proof.
  unfold len, copyInto. rewrite length_app, length_firstn, repeat_length. lia.
Qed.

(** The header that the 24 bytes of a frame are read as. *)
Lemma reading_header (net l : Z) (c sum : list byte) :
  is_uint32 net -> is_uint32 l -> len c = 12 -> len sum = 4 ->
  reading readMessageHeader (le_split 4 net ++ c ++ le_split 4 l ++ sum)
    {| magic := net;
       command := string_of (TrimRight0 c);
       length := l;
       checksum := sum |}.
Proof.
  intros Hn Hl Hc Hs. unfold readMessageHeader.
  replace (le_split 4 net ++ c ++ le_split 4 l ++ sum)
    with (le_split 4 net ++ c ++ le_split 4 l ++ sum ++ [])
    by now rewrite app_nil_r.
  eapply reading_bind; [now apply reading_readUint32|].
  eapply reading_bind; [now apply reading_ReadFull|].
  eapply reading_bind; [now apply reading_readUint32|].
  eapply reading_bind; [now apply reading_ReadFull|].
  apply reading_ret.
Qed.

(** A stream that ends within the header. *)
Lemma readMessageHeader_short (r : Reader) :
  (List.length (input r) < 24)%nat ->
  exists r' e,
    readMessageHeader r = (r', inl e)
    /\ (e = EOF \/ e = ErrUnexpectedEOF)
    /\ (input r = [] -> e = EOF)
    /\ input r' = []
    /\ allocs r' = allocs r.
Proof.
  intros Hs. unfold readMessageHeader, readUint32, readBytes, commandSize, bind.
  assert (Hio : forall l : list byte,
             let e := match l with [] => EOF | _ => ErrUnexpectedEOF end in
             (e = EOF \/ e = ErrUnexpectedEOF) /\ (l = [] -> e = EOF)).
  { intros [|x l]; cbn; split; auto; discriminate. }
  assert (Hne : forall (l : list byte) e, (0 < List.length l)%nat -> l = [] -> e = EOF).
  { intros l e H ->. cbn in H. lia. }
  destruct (ReadFull_cases 4 r) as [[L1 E1]|(L1 & E1 & I1)]; [lia| |];
    rewrite E1; cbn [ret].
  2:{ destruct (Hio (input r)) as [Ha Hb].
      do 2 eexists. split; [reflexivity|].
      rewrite ReadFull_allocs. auto. }
  set (r1 := fst (ReadFull 4 r)) in *.
  assert (I1 : input r1 = skipn 4 (input r)) by apply ReadFull_input.
  assert (A1 : allocs r1 = allocs r) by apply ReadFull_allocs.
  destruct (ReadFull_cases 12 r1) as [[L2 E2]|(L2 & E2 & I2)]; [lia| |];
    rewrite E2.
  2:{ destruct (Hio (input r1)) as [Ha Hb].
      do 2 eexists. split; [reflexivity|].
      rewrite ReadFull_allocs, A1. repeat split; auto.
      apply Hne. lia. }
  set (r2 := fst (ReadFull 12 r1)) in *.
  assert (I2 : input r2 = skipn 12 (input r1)) by apply ReadFull_input.
  assert (A2 : allocs r2 = allocs r1) by apply ReadFull_allocs.
  rewrite I1, length_skipn in L2.
  destruct (ReadFull_cases 4 r2) as [[L3 E3]|(L3 & E3 & I3)]; [lia| |];
    rewrite E3; cbn [ret].
  2:{ destruct (Hio (input r2)) as [Ha Hb].
      do 2 eexists. split; [reflexivity|].
      rewrite ReadFull_allocs, A2, A1. repeat split; auto.
      apply Hne. lia. }
  set (r3 := fst (ReadFull 4 r2)) in *.
  assert (I3 : input r3 = skipn 4 (input r2)) by apply ReadFull_input.
  assert (A3 : allocs r3 = allocs r2) by apply ReadFull_allocs.
  rewrite I2, I1, !length_skipn in L3.
  destruct (ReadFull_cases 4 r3) as [[L4 E4]|(L4 & E4 & I4)]; [lia| |];
    rewrite E4.
  - rewrite I3, I2, I1, !length_skipn in L4. lia.
  - destruct (Hio (input r3)) as [Ha Hb].
    do 2 eexists. split; [reflexivity|].
    rewrite ReadFull_allocs, A3, A2, A1. repeat split; auto.
    apply Hne. lia.
Qed.

(** X4.  The 24 bytes that begin a frame are read as its header: the
    network, the command without the zero bytes that pad it (the command
    itself, when it does not end in a zero byte), the length of the payload
    and the checksum; the payload and what follows it stay in the stream. *)
Theorem readMessageHeader_frame (btcnet : Z) (cmd : string)
    (sum payload rest : list byte) (r : Reader) :
  is_uint32 btcnet ->
  strlen cmd <= commandSize ->
  len sum = 4 ->
  is_uint32 (len payload) ->
  input r = frameBytes btcnet cmd sum payload ++ rest ->
  exists r',
    readMessageHeader r =
      (r', inr {| magic := btcnet;
                  command := string_of (TrimRight0 (bytes_of cmd));
                  length := len payload;
                  checksum := sum |})
    /\ input r' = payload ++ rest
    /\ (last (bytes_of cmd) Byte.x01 <> Byte.x00 ->
        string_of (TrimRight0 (bytes_of cmd)) = cmd).
Proof.
  intros Hn Hc Hs Hl Hi.
  assert (Hp : copyInto 12 (bytes_of cmd)
               = bytes_of cmd ++ repeat Byte.x00 (12 - List.length (bytes_of cmd))).
  { unfold copyInto. rewrite firstn_all2; [reflexivity|].
    pose proof (len_bytes_of cmd) as H. unfold len, commandSize in *. lia. }
  destruct (reading_header btcnet (len payload) (copyInto 12 (bytes_of cmd)) sum
              Hn Hl (len_copyInto 12 _) Hs r (payload ++ rest)) as (r' & E & I).
  { rewrite Hi. unfold frameBytes. now rewrite <- !app_assoc. }
  exists r'. rewrite E, Hp, TrimRight0_app_zeros.
  split; [reflexivity|]. split; [exact I|].
  intros Hz. rewrite (TrimRight0_fixed _ Hz).
  apply string_of_list_byte_of_string.
Qed.

(** X5.  Every header that is read has a network and a length of type
    [uint32], a checksum of four bytes, and a command of at most 12 bytes
    that does not end in a zero byte; they are the first 24 bytes of the
    stream, field by field. *)
Theorem readMessageHeader_fields (r r' : Reader) (hdr : messageHeader) :
  readMessageHeader r = (r', inr hdr) ->
  let b := firstn 24 (input r) in
  hdr = {| magic := le_combine (firstn 4 b);
           command := string_of (TrimRight0 (firstn 12 (skipn 4 b)));
           length := le_combine (firstn 4 (skipn 16 b));
           checksum := skipn 20 b |}
  /\ is_uint32 (magic hdr)
  /\ is_uint32 (length hdr)
  /\ strlen (command hdr) <= 12
  /\ last (bytes_of (command hdr)) Byte.x01 <> Byte.x00
  /\ len (checksum hdr) = 4.
Proof.
  intros H b.
  destruct (readMessageHeader_ok _ _ _ H) as (_ & _ & _ & L & _).
  assert (Hb : len b = 24).
  { unfold len, b. rewrite length_firstn. lia. }
  assert (Hi : input r = b ++ skipn 24 (input r))
    by (symmetry; apply firstn_skipn).
  assert (Hd : b = firstn 4 b ++ firstn 12 (skipn 4 b)
                   ++ firstn 4 (skipn 16 b) ++ skipn 20 b).
  { rewrite <- (firstn_skipn 4 b) at 1. f_equal.
    rewrite <- (firstn_skipn 12 (skipn 4 b)) at 1. f_equal.
    rewrite skipn_skipn. change (12 + 4)%nat with 16%nat.
    rewrite <- (firstn_skipn 4 (skipn 16 b)) at 1. f_equal.
    now rewrite skipn_skipn. }
  unfold len in Hb.
  assert (L1 : len (firstn 4 b) = 4)
    by (unfold len; rewrite length_firstn; lia).
  assert (L2 : len (firstn 12 (skipn 4 b)) = 12)
    by (unfold len; rewrite length_firstn, length_skipn; lia).
  assert (L3 : len (firstn 4 (skipn 16 b)) = 4)
    by (unfold len; rewrite length_firstn, length_skipn; lia).
  assert (L4 : len (skipn 20 b) = 4)
    by (unfold len; rewrite length_skipn; lia).
  set (x1 := firstn 4 b) in *. set (x2 := firstn 12 (skipn 4 b)) in *.
  set (x3 := firstn 4 (skipn 16 b)) in *. set (x4 := skipn 20 b) in *.
  assert (B1 : is_uint32 (le_combine x1)).
  { pose proof (le_combine_bound x1) as Hx. unfold len in L1.
    replace (8 * Z.of_nat (List.length x1)) with 32 in Hx by lia.
    exact Hx. }
  assert (B3 : is_uint32 (le_combine x3)).
  { pose proof (le_combine_bound x3) as Hx. unfold len in L3.
    replace (8 * Z.of_nat (List.length x3)) with 32 in Hx by lia.
    exact Hx. }
  destruct (reading_header _ _ _ _ B1 B3 L2 L4 r (skipn 24 (input r)))
    as (r1 & E & _).
  { rewrite Hi at 1. rewrite Hd at 1.
    rewrite !(split_le_combine' _ 4) by (unfold len in *; lia).
    now rewrite <- !app_assoc. }
  rewrite E in H. injection H as _ <-.
  cbn [magic length command checksum].
  repeat match goal with |- _ /\ _ => split end; auto.
  - rewrite strlen_string_of.
    pose proof (TrimRight0_length x2).
    unfold len in *. lia.
  - unfold bytes_of, string_of. rewrite list_byte_of_string_of_list_byte.
    apply TrimRight0_last.
Qed.

Section FramingProperties.

Context {pkg : Package}.

(** *** ReadMessage: what it takes from the stream *)

(** X2.  On a stream that ends before the 24th byte [ReadMessage] returns
    the error of the read that failed ([io.EOF] when the stream had nothing
    at all, else [io.EOF] or [io.ErrUnexpectedEOF]), no message, with the
    stream emptied and nothing allocated or drained. *)
Theorem ReadMessage_truncated_header (r : Reader) (pver btcnet : Z) :
  (List.length (input r) < 24)%nat ->
  exists r' e,
    ReadMessage r pver btcnet = (r', inl e)
    /\ (e = EOF \/ e = ErrUnexpectedEOF)
    /\ (input r = [] -> e = EOF)
    /\ input r' = []
    /\ allocs r' = allocs r.
Proof.
  intros Hs. destruct (readMessageHeader_short r Hs) as (r' & e & E & H).
  exists r', e. split; [|exact H]. unfold ReadMessage. now rewrite E.
Qed.

(** X1.  Whatever [ReadMessage] returns after it read a header, the message
    or any of its errors, it has taken from the stream the header alone
    when the header declares more than the global maximum, and else the
    header and as many bytes as the header declares (or all there are): the
    stream is left at the next frame. *)
Theorem ReadMessage_frame_alignment
    (r : Reader) (pver btcnet : Z) (r' : Reader) (hdr : messageHeader) :
  readMessageHeader r = (r', inr hdr) ->
  input (fst (ReadMessage r pver btcnet)) =
    if maxMessagePayload <? length hdr
    then skipn 24 (input r)
    else skipn (24 + Z.to_nat (length hdr)) (input r).
Proof.
  intros Hh.
  destruct (readMessageHeader_ok _ _ _ Hh) as (Hi & _ & _ & _ & Hu & _).
  destruct Hu as [Hn _].
  unfold ReadMessage. rewrite Hh.
  destruct (maxMessagePayload <? length hdr); [exact Hi|].
  assert (Hd : input (discardInput r' (length hdr))
               = skipn (24 + Z.to_nat (length hdr)) (input r)).
  { destruct (discardInput_spec r' (length hdr) Hn) as (Hx & _).
    rewrite Hx, Hi, skipn_skipn. f_equal. lia. }
  destruct (negb (magic hdr =? btcnet)); [exact Hd|].
  destruct (negb (utf8_ValidString (command hdr))); [exact Hd|].
  destruct (makeEmptyMessage (command hdr)) as [err|msg]; [exact Hd|].
  destruct (_ <? length hdr); [exact Hd|].
  unfold bind, make.
  match goal with
  | |- context [ReadFull (length hdr) ?s] =>
      pose proof (ReadFull_input (length hdr) s) as Hr;
      destruct (ReadFull (length hdr) s) as [r2 [err|payload]]
  end; cbn [fst input] in Hr;
    rewrite Hi, skipn_skipn, Nat.add_comm in Hr; [exact Hr|].
  destruct (negb _); [exact Hr|].
  destruct (BtcDecode _ _ _) as [[pr m] [err|]]; exact Hr.
Qed.

(** X14.  The buffers that [ReadMessage] and [discardInput] make themselves
    to read from the stream they are given, after the header, are at most
    two.  One of more than 10240 bytes is the buffer of the payload, of the
    length the header declares, and it is only made when the command is
    known and the length is within both the global maximum and the maximum
    of the message type.  The decoder of the message reads the payload from
    a buffer of its own: what it allocates is not on the log of this stream,
    and is not bounded here. *)
Theorem ReadMessage_own_allocations
    (r : Reader) (pver btcnet : Z) (r' : Reader) (hdr : messageHeader) :
  readMessageHeader r = (r', inr hdr) ->
  exists bufs,
    allocs (fst (ReadMessage r pver btcnet)) = allocs r ++ bufs
    /\ (List.length bufs <= 2)%nat
    /\ Forall (fun a =>
                 0 <= a <= 10240
                 \/ (a = length hdr
                     /\ length hdr <= maxMessagePayload
                     /\ exists msg,
                          makeEmptyMessage (command hdr) = inr msg
                          /\ length hdr
                             <= @MaxPayloadLength _ (methods msg) (value msg)
                                  pver))
              bufs.
Proof.
  intros Hh.
  destruct (readMessageHeader_ok _ _ _ Hh) as (_ & _ & Ha & _ & Hu & _).
  destruct Hu as [Hn _].
  unfold ReadMessage. rewrite Hh. rewrite <- Ha.
  destruct (Z.ltb_spec maxMessagePayload (length hdr)) as [Hl|Hl].
  { exists []. cbn [fst]. rewrite app_nil_r. repeat split; auto. }
  assert (Hd : exists bufs,
             allocs (discardInput r' (length hdr)) = allocs r' ++ bufs
             /\ (List.length bufs <= 2)%nat
             /\ Forall (fun a =>
                 0 <= a <= 10240
                 \/ (a = length hdr
                     /\ length hdr <= maxMessagePayload
                     /\ exists msg,
                          makeEmptyMessage (command hdr) = inr msg
                          /\ length hdr
                             <= @MaxPayloadLength _ (methods msg) (value msg)
                                  pver))
              bufs).
  { exists (chunkBuffers (length hdr)).
    destruct (discardInput_spec r' (length hdr) Hn) as (_ & _ & Hx).
    destruct (chunkBuffers_bounded (length hdr)) as (Hb & Hc).
    split; [exact Hx|]. split; [exact Hc|].
    eapply Forall_impl; [|exact Hb]. cbn beta. intros a H. left.
    unfold chunkSize in H. lia. }
  destruct (negb (magic hdr =? btcnet)); [exact Hd|].
  destruct (negb (utf8_ValidString (command hdr))); [exact Hd|].
  destruct (makeEmptyMessage (command hdr)) as [err|msg] eqn:Em; [exact Hd|].
  destruct (Z.ltb_spec (@MaxPayloadLength _ (methods msg) (value msg) pver)
              (length hdr)) as [Hp|Hp]; [exact Hd|].
  exists [length hdr]. split; [|split].
  - unfold bind, make.
    match goal with
    | |- context [ReadFull (length hdr) ?s] =>
        pose proof (ReadFull_allocs (length hdr) s) as Hr;
        destruct (ReadFull (length hdr) s) as [r2 [err|payload]]
    end; cbn [fst allocs] in Hr; [exact Hr|].
    destruct (negb _); [exact Hr|].
    destruct (BtcDecode _ _ _) as [[pr m] [err|]]; exact Hr.
  - cbn. lia.
  - constructor; [|constructor]. right. split; [reflexivity|].
    split; [exact Hl|]. exists msg. split; [reflexivity | exact Hp].
Qed.

(** X3.  When the header passed every check and the stream ends before
    the payload does, [ReadMessage] returns the error of the read
    ([io.EOF] when no byte of the payload came, else
    [io.ErrUnexpectedEOF]): the buffer of the declared length was
    allocated, one read was made, and nothing is drained. *)
Theorem ReadMessage_truncated_payload
    (r : Reader) (pver btcnet : Z) (r' : Reader) (hdr : messageHeader)
    (msg : AnyMessage) :
  readMessageHeader r = (r', inr hdr) ->
  length hdr <= maxMessagePayload ->
  magic hdr = btcnet ->
  utf8_ValidString (command hdr) = true ->
  makeEmptyMessage (command hdr) = inr msg ->
  length hdr <= @MaxPayloadLength _ (methods msg) (value msg) pver ->
  (List.length (input r') < Z.to_nat (length hdr))%nat ->
  ReadMessage r pver btcnet =
    ({| input := [];
        reads := reads r' ++ [length hdr];
        allocs := allocs r' ++ [length hdr] |},
     inl (match input r' with [] => EOF | _ => ErrUnexpectedEOF end)).
Proof.
  intros Hh Hl Hm Hv He Hp Hs.
  unfold ReadMessage. rewrite Hh.
  apply Z.ltb_ge in Hl, Hp. apply Z.eqb_eq in Hm.
  rewrite Hl, Hm, Hv. cbn [negb]. rewrite He, Hp.
  unfold bind, make, ReadFull. cbn [input reads allocs].
  destruct (Z.leb_spec (length hdr) 0) as [H|_]; [lia|].
  destruct (Nat.leb_spec (Z.to_nat (length hdr)) (List.length (input r')))
    as [H|_]; [lia|].
  rewrite skipn_all2 by lia. reflexivity.
Qed.

End FramingProperties.

Section RoundTrip.

Context {pkg : Package}.

(** *** WriteMessage and ReadMessage, one after the other *)

Lemma len_versionBytes (pver : Z) (msg : MsgVersion) (you me : list byte) :
  strlen (UserAgent msg) <= MaxUserAgentLen ->
  NetAddress_wire pver (AddrYou msg) you ->
  NetAddress_wire pver (AddrMe msg) me ->
  0 <= maxNetAddressPayload pver
  /\ 0 <= len (versionBytes msg you me)
       <= 32 + 2 * maxNetAddressPayload pver + maxVarIntPayload
          + MaxUserAgentLen.
Proof.
  intros Hua (_ & _ & Hy) (_ & _ & Hm).
  pose proof (len_varIntBytes (strlen (UserAgent msg))) as Hv.
  unfold versionBytes. rewrite !len_app, !len_le_split, len_bytes_of.
  unfold strlen in *. lia.
Qed.

Lemma copyInto_exact (n : nat) (b : list byte) :
  List.length b = n -> copyInto n b = b.
Proof.
  intros H. unfold copyInto.
  now rewrite firstn_all2, H, Nat.sub_diag, app_nil_r by lia.
Qed.

(** What [WriteMessage] appends to a sink that grows, for a version
    message. *)
Lemma WriteMessage_versionFrame (w : Writer) (pver btcnet : Z)
    (msg : MsgVersion) (you me : list byte) :
  room w = None ->
  sendable pver msg you me ->
  2 * maxNetAddressPayload pver + 2041 <= maxMessagePayload ->
  WriteMessage w msg pver btcnet =
    ({| output := output w ++ versionFrame btcnet msg you me; room := None |},
     inr tt).
Proof.
  intros Hw (Hwt & Hua & Hy & Hm & Hh) Hmax.
  destruct (len_versionBytes pver msg you me Hua Hy Hm) as (Hna & Hl0 & Hl).
  unfold maxVarIntPayload, MaxUserAgentLen in Hl.
  assert (Hmx : maxMessagePayload = 33554432) by reflexivity.
  unfold WriteMessage.
  change (commandSize <? strlen (Command msg)) with false. cbv iota.
  change (BtcEncode msg emptyBuffer pver)
    with (MsgVersion_BtcEncode msg emptyBuffer pver).
  rewrite (MsgVersion_encode_versionBytes pver msg you me Hua Hy Hm)
    by reflexivity.
  cbn [output emptyBuffer app].
  set (payload := versionBytes msg you me) in *.
  replace (maxMessagePayload <? len payload) with false
    by (symmetry; apply Z.ltb_ge; lia).
  assert (Hu : uint32 (len payload) = len payload)
    by (unfold uint32; apply Z.mod_small; lia).
  rewrite Hu.
  assert (Hp : MaxPayloadLength msg pver
               = 32 + 2 * maxNetAddressPayload pver + 9 + 2000).
  { change (MaxPayloadLength msg pver)
      with (MsgVersion_MaxPayloadLength msg pver).
    unfold MsgVersion_MaxPayloadLength, uint32, maxVarIntPayload,
      MaxUserAgentLen.
    rewrite Zplus_mod_idemp_l, <- Z.add_assoc, Zplus_mod_idemp_l.
    rewrite (Z.add_comm 32), <- Z.add_assoc, Zplus_mod_idemp_l.
    rewrite Z.mod_small; lia. }
  replace (MaxPayloadLength msg pver <? len payload) with false
    by (symmetry; apply Z.ltb_ge; lia).
  cbn [magic length checksum]. rewrite frame_writes.
  rewrite writeAll_unbounded by exact Hw.
  unfold versionFrame, frameBytes. fold payload.
  cbn [List.concat]. rewrite app_nil_r.
  rewrite (copyInto_exact 4); [reflexivity|].
  rewrite length_firstn. unfold len in Hh. lia.
Qed.

(** And how [ReadMessage] reads that frame, whatever follows it. *)
Lemma ReadMessage_versionFrame (r : Reader) (pver btcnet : Z)
    (msg : MsgVersion) (you me rest : list byte) :
  is_uint32 btcnet ->
  sendable pver msg you me ->
  2 * maxNetAddressPayload pver + 2041 <= maxMessagePayload ->
  input r = versionFrame btcnet msg you me ++ rest ->
  exists r',
    ReadMessage r pver btcnet =
      (r', inr (asMessage (toSeconds msg), versionBytes msg you me))
    /\ input r' = rest.
Proof.
  intros Hn (Hwt & Hua & Hy & Hm & Hh) Hmax Hi.
  destruct (len_versionBytes pver msg you me Hua Hy Hm) as (Hna & Hl0 & Hl).
  unfold maxVarIntPayload, MaxUserAgentLen in Hl.
  assert (Hmx : maxMessagePayload = 33554432) by reflexivity.
  set (payload := versionBytes msg you me) in *.
  set (sum := firstn 4 (DoubleSha256 payload)) in *.
  assert (Hs : len sum = 4).
  { unfold len, sum in *. rewrite length_firstn. lia. }
  destruct (reading_header btcnet (len payload)
              (copyInto 12 (bytes_of cmdVersion)) sum Hn) with
    (r := r) (rest := payload ++ rest) as (r1 & E1 & I1);
    [unfold is_uint32; lia | reflexivity | exact Hs | |].
  { rewrite Hi. unfold versionFrame, frameBytes. fold payload. fold sum.
    now rewrite <- !app_assoc. }
  change (string_of (TrimRight0 (copyInto 12 (bytes_of cmdVersion))))
    with cmdVersion in E1.
  assert (Hf : firstn (Z.to_nat (len payload)) (input r1) = payload).
  { rewrite I1. unfold len. rewrite Nat2Z.id, firstn_app, firstn_all,
      Nat.sub_diag, firstn_O. apply app_nil_r. }
  destruct (MsgVersion_decode_versionBytes pver msg you me Hwt Hua Hy Hm
              (NewBuffer payload) emptyMsgVersion [])
    as (pr & Ed & _).
  { cbn [NewBuffer input]. now rewrite app_nil_r. }
  pose proof (ReadMessage_accepts r pver btcnet r1 _
                (asMessage emptyMsgVersion) pr (toSeconds msg) E1) as Ha.
  cbn [length magic command checksum value methods concrete] in Ha.
  cbv zeta in Ha. rewrite Hf in Ha.
  rewrite Ha.
  - eexists. split; [reflexivity|]. cbn [input]. rewrite I1. unfold len.
    now rewrite Nat2Z.id, skipn_app, skipn_all, Nat.sub_diag.
  - lia.
  - reflexivity.
  - reflexivity.
  - reflexivity.
  - change (MaxPayloadLength emptyMsgVersion pver)
      with (MsgVersion_MaxPayloadLength emptyMsgVersion pver).
    unfold MsgVersion_MaxPayloadLength, uint32, maxVarIntPayload,
      MaxUserAgentLen.
    rewrite Zplus_mod_idemp_l, <- Z.add_assoc, Zplus_mod_idemp_l.
    rewrite (Z.add_comm 32), <- Z.add_assoc, Zplus_mod_idemp_l.
    rewrite Z.mod_small; lia.
  - rewrite I1, length_app. unfold len. lia.
  - reflexivity.
  - change (BtcDecode emptyMsgVersion (NewBuffer payload) pver)
      with (MsgVersion_BtcDecode emptyMsgVersion (NewBuffer payload) pver).
    unfold MsgVersion_BtcDecode. rewrite Ed. reflexivity.
Qed.

End RoundTrip.

Section RoundTripTheorems.

Context {pkg : Package}.

(** A frame of another network is skipped whole. *)
Lemma ReadMessage_skips_other_network (r : Reader) (pver btcnet net : Z)
    (cmd : string) (sum payload rest : list byte) :
  is_uint32 net -> net <> btcnet ->
  strlen cmd <= commandSize -> len sum = 4 ->
  len payload <= maxMessagePayload ->
  input r = frameBytes net cmd sum payload ++ rest ->
  exists r',
    ReadMessage r pver btcnet =
      (r', inl (MessageError "ReadMessage" (DescOtherNetwork net)))
    /\ input r' = rest.
Proof.
  intros Hn Hne Hc Hs Hl Hi.
  assert (Hmx : maxMessagePayload = 33554432) by reflexivity.
  assert (Hl0 : 0 <= len payload) by (unfold len; lia).
  destruct (reading_header net (len payload) (copyInto 12 (bytes_of cmd)) sum
              Hn) with (r := r) (rest := payload ++ rest) as (r1 & E1 & I1);
    [unfold is_uint32; lia | apply len_copyInto | exact Hs | |].
  { rewrite Hi. unfold frameBytes. now rewrite <- !app_assoc. }
  unfold ReadMessage. rewrite E1. cbn [length magic].
  replace (maxMessagePayload <? len payload) with false
    by (symmetry; apply Z.ltb_ge; lia).
  replace (net =? btcnet) with false by (symmetry; now apply Z.eqb_neq).
  cbn [negb]. eexists. split; [reflexivity|].
  destruct (discardInput_spec r1 (len payload) Hl0) as (Hx & _).
  rewrite Hx, I1. unfold len.
  now rewrite Nat2Z.id, skipn_app, skipn_all, Nat.sub_diag.
Qed.

(** X6.  A version message that can be sent, written by [WriteMessage]
    into an empty buffer, is read back by [ReadMessage] from the bytes of the
    buffer, at the same protocol version and network: the message with its
    time cut to the second, and its payload; what follows the frame in the
    stream is left there. *)
Theorem WriteMessage_ReadMessage_version (pver btcnet : Z)
    (msg : MsgVersion) (you me : list byte) :
  is_uint32 btcnet ->
  sendable pver msg you me ->
  2 * maxNetAddressPayload pver + 2041 <= maxMessagePayload ->
  exists w,
    WriteMessage emptyBuffer msg pver btcnet = (w, inr tt)
    /\ forall r rest, input r = output w ++ rest ->
         exists r',
           ReadMessage r pver btcnet =
             (r', inr (asMessage (toSeconds msg), versionBytes msg you me))
           /\ input r' = rest.
Proof.
  intros Hn Hs Hmax. eexists. split.
  - now apply (WriteMessage_versionFrame emptyBuffer pver btcnet msg you me).
  - cbn [output emptyBuffer app]. intros r rest Hi.
    now apply (ReadMessage_versionFrame r pver btcnet msg you me rest).
Qed.

(** X8.  Two version messages written one after the other into a buffer
    are read back one after the other, and the stream is then at its end. *)
Theorem WriteMessage_twice_ReadMessage_twice (pver btcnet : Z)
    (m1 m2 : MsgVersion) (you1 me1 you2 me2 : list byte) :
  is_uint32 btcnet ->
  sendable pver m1 you1 me1 ->
  sendable pver m2 you2 me2 ->
  2 * maxNetAddressPayload pver + 2041 <= maxMessagePayload ->
  exists w1 w2 r1 r2,
    WriteMessage emptyBuffer m1 pver btcnet = (w1, inr tt)
    /\ WriteMessage w1 m2 pver btcnet = (w2, inr tt)
    /\ ReadMessage (NewBuffer (output w2)) pver btcnet =
         (r1, inr (asMessage (toSeconds m1), versionBytes m1 you1 me1))
    /\ ReadMessage r1 pver btcnet =
         (r2, inr (asMessage (toSeconds m2), versionBytes m2 you2 me2))
    /\ input r2 = [].
Proof.
  intros Hn H1 H2 Hmax.
  pose proof (WriteMessage_versionFrame emptyBuffer pver btcnet m1 you1 me1
                eq_refl H1 Hmax) as W1.
  cbn [output emptyBuffer app] in W1.
  pose proof (WriteMessage_versionFrame
                {| output := versionFrame btcnet m1 you1 me1; room := None |}
                pver btcnet m2 you2 me2 eq_refl H2 Hmax) as W2.
  cbn [output] in W2.
  destruct (ReadMessage_versionFrame
              (NewBuffer (versionFrame btcnet m1 you1 me1
                          ++ versionFrame btcnet m2 you2 me2))
              pver btcnet m1 you1 me1 (versionFrame btcnet m2 you2 me2)
              Hn H1 Hmax eq_refl) as (r1 & E1 & I1).
  destruct (ReadMessage_versionFrame r1 pver btcnet m2 you2 me2 []
              Hn H2 Hmax) as (r2 & E2 & I2).
  { now rewrite app_nil_r. }
  do 4 eexists. split; [exact W1|]. split; [exact W2|].
  cbn [output]. split; [exact E1|]. split; [exact E2 | exact I2].
Qed.

(** X7.  After [ReadMessage] rejected a frame of another network,
    whatever its command, checksum and payload, the stream is at the frame
    that follows: the next [ReadMessage] reads that version message. *)
Theorem ReadMessage_resumes_after_other_network (r : Reader)
    (pver btcnet net : Z) (cmd : string) (sum payload : list byte)
    (msg : MsgVersion) (you me rest : list byte) :
  is_uint32 net -> net <> btcnet ->
  strlen cmd <= commandSize -> len sum = 4 ->
  len payload <= maxMessagePayload ->
  is_uint32 btcnet ->
  sendable pver msg you me ->
  2 * maxNetAddressPayload pver + 2041 <= maxMessagePayload ->
  input r = frameBytes net cmd sum payload
            ++ versionFrame btcnet msg you me ++ rest ->
  exists r1 r2,
    ReadMessage r pver btcnet =
      (r1, inl (MessageError "ReadMessage" (DescOtherNetwork net)))
    /\ ReadMessage r1 pver btcnet =
         (r2, inr (asMessage (toSeconds msg), versionBytes msg you me))
    /\ input r2 = rest.
Proof.
  intros Hn Hne Hc Hs Hl Hb Hm Hmax Hi.
  destruct (ReadMessage_skips_other_network r pver btcnet net cmd sum payload
              _ Hn Hne Hc Hs Hl Hi) as (r1 & E1 & I1).
  destruct (ReadMessage_versionFrame r1 pver btcnet msg you me rest
              Hb Hm Hmax I1) as (r2 & E2 & I2).
  exists r1, r2. auto.
Qed.

(** X13.  Whenever [WriteMessage] returns no error, for a message of any
    type and any sink, the command has at most 12 bytes, the payload encoded
    and has at most 32 MiB and at most the maximum of its type, and the sink
    received exactly the frame: 24 bytes of header and the payload. *)
Theorem WriteMessage_success {T : Type} {M : Message T}
    (w : Writer) (msg : T) (pver btcnet : Z) :
  snd (WriteMessage w msg pver btcnet) = inr tt ->
  let enc := BtcEncode msg emptyBuffer pver in
  let payload := output (fst enc) in
  let frame :=
    frameBytes btcnet (Command msg)
      (copyInto 4 (firstn 4 (DoubleSha256 payload))) payload in
  snd enc = inr tt
  /\ strlen (Command msg) <= 12
  /\ len payload <= 33554432
  /\ len payload <= MaxPayloadLength msg pver
  /\ output (fst (WriteMessage w msg pver btcnet)) = output w ++ frame
  /\ len frame = 24 + len payload.
Proof.
  intros H enc payload frame. unfold WriteMessage in *.
  fold enc in H |- *.
  change commandSize with 12 in *. change maxMessagePayload with 33554432 in *.
  destruct (Z.ltb_spec 12 (strlen (Command msg))) as [Hc|Hc];
    [discriminate|].
  subst frame payload. destruct enc as [bw [err|[]]]; [discriminate|].
  cbn [fst snd] in *.
  destruct (Z.ltb_spec 33554432 (len (output bw))) as [Hl|Hl];
    [discriminate|].
  assert (Hu : uint32 (len (output bw)) = len (output bw)).
  { unfold uint32. apply Z.mod_small. unfold len in *. lia. }
  rewrite Hu in *.
  destruct (Z.ltb_spec (MaxPayloadLength msg pver) (len (output bw)))
    as [Hm|Hm]; [discriminate|].
  cbn [magic length checksum] in *. rewrite frame_writes in *.
  set (ps := [_; _; _; _; _]) in *.
  destruct (writeAll_prefix ps w) as (k & _ & H2 & _).
  repeat match goal with |- _ /\ _ => split end; auto.
  - rewrite (H2 H). unfold ps, frameBytes. cbn [List.concat].
    now rewrite app_nil_r.
  - unfold frameBytes.
    rewrite !len_app, !len_le_split, (len_copyInto 12), (len_copyInto 4).
    lia.
Qed.

End RoundTripTheorems.

(** ** More of msgversion.go *)

Lemma int32_range (z : Z) : is_int32 (int32 z).
Proof.
  unfold is_int32, int32.
  pose proof (Z.mod_pos_bound (z + 2 ^ 31) (2 ^ 32)). lia.
Qed.

Lemma int64_range (z : Z) : is_int64 (int64 z).
Proof.
  unfold is_int64, int64.
  pose proof (Z.mod_pos_bound (z + 2 ^ 63) (2 ^ 64)). lia.
Qed.

Lemma readInt32_range (r r' : Reader) (v : Z) :
  readInt32 r = (r', inr v) -> is_int32 v.
Proof.
  unfold readInt32. intros H. apply bind_inr in H.
  destruct H as (r1 & b & _ & H). injection H as _ <-. apply int32_range.
Qed.

Lemma readInt64_range (r r' : Reader) (v : Z) :
  readInt64 r = (r', inr v) -> is_int64 v.
Proof.
  unfold readInt64. intros H. apply bind_inr in H.
  destruct H as (r1 & b & _ & H). injection H as _ <-. apply int64_range.
Qed.

Lemma readUint64_range (r r' : Reader) (v : Z) :
  readUint64 r = (r', inr v) -> is_uint64 v.
Proof.
  unfold readUint64. intros H. apply bind_inr in H.
  destruct H as (r1 & b & Hb & H). injection H as _ <-.
  apply ReadFull_ok in Hb; [|lia]. destruct Hb as (-> & _ & _).
  change (Z.to_nat 8) with 8%nat.
  pose proof (le_combine_bound (firstn 8 (input r))) as Hx.
  pose proof (length_firstn 8 (input r)) as Hl.
  assert (2 ^ (8 * Z.of_nat (List.length (firstn 8 (input r)))) <= 2 ^ 64)
    by (apply Z.pow_le_mono_r; lia).
  unfold is_uint64. lia.
Qed.

Section VersionProperties.

Context {pkg : Package}.

Lemma onReader_inr {A} (c : io Reader A) (s s' : Reader * MsgVersion) (a : A) :
  onReader c s = (s', inr a) ->
  snd s' = snd s /\ c (fst s) = (fst s', inr a).
Proof.
  unfold onReader. destruct (c (fst s)) as [r1 x].
  intros H. injection H as <- <-. auto.
Qed.

Lemma store_inr (f : MsgVersion -> MsgVersion) (s s' : Reader * MsgVersion)
    (u : unit) :
  store f s = (s', inr u) -> snd s' = f (snd s).
Proof. unfold store. intros H. now injection H as <-. Qed.

Lemma readNetAddressInto_inr (pver : Z) (field : MsgVersion -> NetAddress)
    (assign : NetAddress -> MsgVersion -> MsgVersion)
    (s s' : Reader * MsgVersion) (u : unit) :
  readNetAddressInto pver field assign false s = (s', inr u) ->
  exists na, snd s' = assign na (snd s).
Proof.
  unfold readNetAddressInto.
  destruct (readNetAddress _ _ _ _) as [[r1 na] err].
  intros H. injection H as <- _. now exists na.
Qed.

(** X12.  Every version message that [BtcDecode] returns without error,
    from any bytes and into any message, has a user agent of at most
    [MaxUserAgentLen] bytes, fields within their types, and a time without a
    part below the second. *)
Theorem MsgVersion_BtcDecode_invariant
    (into : MsgVersion) (r : Reader) (pver : Z) (r' : Reader)
    (msg : MsgVersion) :
  MsgVersion_BtcDecode into r pver = (r', msg, None) ->
  strlen (UserAgent msg) <= MaxUserAgentLen
  /\ well_typed msg
  /\ nanos (Timestamp msg) = 0.
Proof.
  unfold MsgVersion_BtcDecode.
  destruct (MsgVersion_decode pver (r, into)) as [s [e|[]]] eqn:E;
    [discriminate|].
  intros H. injection H as _ <-. clear r'.
  unfold MsgVersion_decode in E.
  apply bind_inr in E. destruct E as (s1 & v & H1 & E).
  apply onReader_inr in H1. destruct H1 as (M1 & H1).
  apply readInt32_range in H1.
  apply bind_inr in E. destruct E as (s2 & [] & H2 & E).
  apply store_inr in H2.
  apply bind_inr in E. destruct E as (s3 & sv & H3 & E).
  apply onReader_inr in H3. destruct H3 as (M3 & H3).
  apply readUint64_range in H3.
  apply bind_inr in E. destruct E as (s4 & [] & H4 & E).
  apply store_inr in H4.
  apply bind_inr in E. destruct E as (s5 & sec & H5 & E).
  apply onReader_inr in H5. destruct H5 as (M5 & H5).
  apply readInt64_range in H5.
  apply bind_inr in E. destruct E as (s6 & [] & H6 & E).
  apply store_inr in H6.
  apply bind_inr in E. destruct E as (s7 & [] & H7 & E).
  apply readNetAddressInto_inr in H7. destruct H7 as (na1 & H7).
  apply bind_inr in E. destruct E as (s8 & [] & H8 & E).
  apply readNetAddressInto_inr in H8. destruct H8 as (na2 & H8).
  apply bind_inr in E. destruct E as (s9 & n & H9 & E).
  apply onReader_inr in H9. destruct H9 as (M9 & H9).
  apply readUint64_range in H9.
  apply bind_inr in E. destruct E as (s10 & [] & H10 & E).
  apply store_inr in H10.
  apply bind_inr in E. destruct E as (s11 & ua & H11 & E).
  apply onReader_inr in H11. destruct H11 as (M11 & _).
  destruct (Z.ltb_spec MaxUserAgentLen (strlen ua)) as [Hu|Hu];
    [discriminate|].
  apply bind_inr in E. destruct E as (s12 & [] & H12 & E).
  apply store_inr in H12.
  apply bind_inr in E. destruct E as (s13 & l & H13 & E).
  apply onReader_inr in H13. destruct H13 as (M13 & H13).
  apply readInt32_range in H13.
  apply store_inr in E.
  rewrite E, M13, H12, M11, H10, M9, H8, H7, H6, M5, H4, M3, H2, M1.
  cbn [fst snd]. unfold well_typed.
  cbn [UserAgent ProtocolVersion Services Timestamp Nonce LastBlock
       set_ProtocolVersion set_Services set_Timestamp set_AddrYou set_AddrMe
       set_Nonce set_UserAgent set_LastBlock].
  unfold time_Unix, Time_Unix. cbn [unixSec nanos].
  repeat match goal with |- _ /\ _ => split end; auto.
  apply int64_range.
Qed.

(** *** The services *)

Lemma HasService_iff (msg : MsgVersion) (service : Z) :
  HasService msg service = true <-> Z.land (Services msg) service = service.
Proof.
  unfold HasService.
  destruct (Z.eqb_spec (Z.land (Services msg) service) service);
    split; congruence.
Qed.

(** X10.  [AddService] only adds: a service the message had, it still
    has; both of two services added one after the other are there, in either
    order, and adding one twice, or one that is there, changes nothing. *)
Theorem AddService_only_adds (msg : MsgVersion) (s t : Z) :
  (HasService msg s = true -> HasService (AddService msg t) s = true)
  /\ HasService (AddService (AddService msg s) t) s = true
  /\ HasService (AddService (AddService msg s) t) t = true
  /\ AddService (AddService msg s) t = AddService (AddService msg t) s
  /\ AddService (AddService msg s) s = AddService msg s
  /\ (HasService msg s = true ->
      Services (AddService msg s) = Services msg)
  /\ (is_uint64 (Services msg) -> is_uint64 s ->
      is_uint64 (Services (AddService msg s))).
Proof.
  assert (Hadd : forall m a b,
             HasService m a = true -> HasService (AddService m b) a = true).
  { intros m a b H. apply HasService_iff in H. apply HasService_iff.
    unfold AddService, set_Services. cbn [Services].
    apply land_eq_iff. intros i Hi. rewrite Z.lor_spec.
    rewrite (proj1 (land_eq_iff _ _) H i Hi). reflexivity. }
  assert (Hnew : forall m a, HasService (AddService m a) a = true).
  { intros m a. apply HasService_iff.
    unfold AddService, set_Services. cbn [Services].
    apply land_eq_iff. intros i Hi. rewrite Z.lor_spec, Hi.
    apply orb_true_r. }
  repeat match goal with |- _ /\ _ => split end; auto.
  - unfold AddService, set_Services. cbn. f_equal.
    rewrite <- !Z.lor_assoc. f_equal. apply Z.lor_comm.
  - unfold AddService, set_Services. cbn. f_equal.
    rewrite <- Z.lor_assoc. f_equal. apply Z.lor_diag.
  - intros H. apply HasService_iff in H.
    unfold AddService, set_Services. cbn [Services].
    apply Z.bits_inj'. intros i _. rewrite Z.lor_spec.
    destruct (Z.testbit s i) eqn:E.
    + rewrite (proj1 (land_eq_iff _ _) H i E). reflexivity.
    + apply orb_false_r.
  - unfold is_uint64, AddService, set_Services. cbn [Services].
    intros [H1 H2] [H3 H4]. split.
    + now apply Z.lor_nonneg.
    + destruct (Z.eq_dec (Z.lor (Services msg) s) 0) as [->|Hz]; [lia|].
      apply Z.log2_lt_pow2.
      * pose proof (Z.lor_nonneg (Services msg) s). lia.
      * rewrite Z.log2_lor by assumption.
        apply Z.max_lub_lt.
        -- destruct (Z.eq_dec (Services msg) 0) as [->|]; [cbn; lia|].
           apply Z.log2_lt_pow2; lia.
        -- destruct (Z.eq_dec s 0) as [->|]; [cbn; lia|].
           apply Z.log2_lt_pow2; lia.
Qed.

(** X11.  [HasService] of two services at once asks for both; of no service
    it is true; and a message without services has none but that. *)
Theorem HasService_combined (msg : MsgVersion) (s t : Z) :
  HasService msg (Z.lor s t) = HasService msg s && HasService msg t
  /\ HasService msg 0 = true
  /\ (Services msg = 0 -> (HasService msg s = true <-> s = 0)).
Proof.
  split; [|split].
  - apply eq_true_iff_eq. rewrite andb_true_iff, !HasService_iff.
    rewrite !land_eq_iff. split.
    + intros H. split; intros i Hi; apply H; rewrite Z.lor_spec, Hi;
        [reflexivity | apply orb_true_r].
    + intros [H1 H2] i Hi. rewrite Z.lor_spec in Hi.
      apply orb_true_iff in Hi. destruct Hi; auto.
  - apply HasService_iff. apply Z.land_0_r.
  - intros H. rewrite HasService_iff, H, Z.land_0_l. split; congruence.
Qed.

(** *** NewMsgVersion *)

(** X9.  The message [NewMsgVersion] makes has no services, has the first
    address it is given as [AddrMe] and the second as [AddrYou], and a time
    without a part below the second: when its user agent is within the
    limit, its nonce and last block hold values of their types, the clock is
    within [int64] seconds and the address codec carries the two addresses,
    it encodes, and decoding the bytes gives the very same message. *)
Theorem NewMsgVersion_roundtrip (protocolVersion : Z) (now : Time)
    (me you : NetAddress) (nonce : Z) (userAgent : string) (lastBlock : Z)
    (pver : Z) (youB meB : list byte) :
  is_int64 (unixSec now) ->
  is_uint64 nonce ->
  is_int32 lastBlock ->
  strlen userAgent <= MaxUserAgentLen ->
  NetAddress_wire pver you youB ->
  NetAddress_wire pver me meB ->
  let msg :=
    NewMsgVersion protocolVersion now me you nonce userAgent lastBlock in
  let payload := versionBytes msg youB meB in
  Services msg = 0 /\ AddrMe msg = me /\ AddrYou msg = you
  /\ Timestamp msg = mkTime (unixSec now) 0
  /\ MsgVersion_BtcEncode msg emptyBuffer pver =
       ({| output := payload; room := None |}, inr tt)
  /\ (forall into, exists r',
        MsgVersion_BtcDecode into (NewBuffer payload) pver = (r', msg, None)
        /\ input r' = []).
Proof.
  intros Hnow Hn Hl Hua Hy Hm msg payload.
  assert (Ht : Timestamp msg = mkTime (unixSec now) 0).
  { unfold msg, NewMsgVersion, time_Unix, Time_Unix. cbn [Timestamp].
    f_equal. unfold int64, is_int64 in *. change (0 / 1000000000) with 0.
    rewrite Z.add_0_r, Z.mod_small; lia. }
  assert (Hwt : well_typed msg).
  { unfold well_typed. rewrite Ht. unfold msg, NewMsgVersion.
    cbn [ProtocolVersion Services Nonce LastBlock Time_Unix unixSec].
    repeat split; try apply int32_range; try apply Hn; try apply Hl;
      try apply Hnow; unfold is_uint64; lia. }
  assert (Hs : toSeconds msg = msg).
  { unfold toSeconds, set_Timestamp. rewrite Ht.
    unfold time_Unix, Time_Unix. cbn [unixSec].
    replace (int64 (unixSec now + 0 / 1000000000)) with (unixSec now).
    - change (0 mod 1000000000) with 0. rewrite <- Ht. reflexivity.
    - unfold int64, is_int64 in *. change (0 / 1000000000) with 0.
      rewrite Z.add_0_r, Z.mod_small; lia. }
  repeat match goal with |- _ /\ _ => split end; try reflexivity.
  - exact Ht.
  - now rewrite (MsgVersion_encode_versionBytes pver msg youB meB Hua Hy Hm).
  - intros into.
    destruct (MsgVersion_decode_versionBytes pver msg youB meB Hwt Hua Hy Hm
                (NewBuffer payload) into []) as (r' & E & I).
    + cbn [NewBuffer input]. now rewrite app_nil_r.
    + exists r'. split; [|exact I].
      unfold MsgVersion_BtcDecode. rewrite E. cbn [fst snd]. now rewrite Hs.
Qed.

End VersionProperties.

Section MoreProperties.

Context {pkg : Package}.

(** X15.  A stream that ends within the first twenty bytes of a version
    message: [BtcDecode] returns [io.EOF] or [io.ErrUnexpectedEOF], has taken
    what was there, and has not reached the assignment of the time stamp,
    nor the addresses, the nonce, the user agent and the last block. *)
Theorem MsgVersion_BtcDecode_truncated
    (into : MsgVersion) (r : Reader) (pver : Z) :
  (List.length (input r) < 20)%nat ->
  exists r' m' e,
    MsgVersion_BtcDecode into r pver = (r', m', Some e)
    /\ (e = EOF \/ e = ErrUnexpectedEOF)
    /\ input r' = []
    /\ Timestamp m' = Timestamp into
    /\ AddrYou m' = AddrYou into /\ AddrMe m' = AddrMe into
    /\ Nonce m' = Nonce into /\ UserAgent m' = UserAgent into
    /\ LastBlock m' = LastBlock into.
Proof.
  intros Hs.
  assert (Hio : forall l : list byte,
             match l with [] => EOF | _ => ErrUnexpectedEOF end = EOF
             \/ match l with [] => EOF | _ => ErrUnexpectedEOF end
                = ErrUnexpectedEOF).
  { intros [|x l]; auto. }
  unfold MsgVersion_BtcDecode, MsgVersion_decode, readInt32, readUint64,
    readInt64, onReader, store, bind, ret.
  cbn [fst snd].
  destruct (ReadFull_cases 4 r) as [[L1 E1]|(L1 & E1 & I1)]; [lia| |];
    rewrite E1; cbn [fst snd].
  2:{ do 3 eexists. split; [reflexivity|]. auto 10. }
  set (r1 := fst (ReadFull 4 r)) in *.
  assert (I1 : input r1 = skipn 4 (input r)) by apply ReadFull_input.
  destruct (ReadFull_cases 8 r1) as [[L2 E2]|(L2 & E2 & I2)]; [lia| |];
    rewrite E2; cbn [fst snd].
  2:{ do 3 eexists. split; [reflexivity|]. auto 10. }
  set (r2 := fst (ReadFull 8 r1)) in *.
  assert (I2 : input r2 = skipn 8 (input r1)) by apply ReadFull_input.
  destruct (ReadFull_cases 8 r2) as [[L3 E3]|(L3 & E3 & I3)]; [lia| |];
    rewrite E3; cbn [fst snd].
  - rewrite I2, I1, !length_skipn in L3. lia.
  - do 3 eexists. split; [reflexivity|]. auto 10.
Qed.

(** X16.  What [ReadMessage] returns, it has checked: the header was read,
    it is of this network and declares no more than the two maxima; the
    payload is the bytes behind the header, as many as declared, and the
    first four bytes of its double hash are the checksum; the command is
    known, and the message is what its decoder made of the payload. *)
Theorem ReadMessage_success (r : Reader) (pver btcnet : Z) (r2 : Reader)
    (msg : AnyMessage) (payload : list byte) :
  ReadMessage r pver btcnet = (r2, inr (msg, payload)) ->
  exists r1 hdr empty pr m,
    readMessageHeader r = (r1, inr hdr)
    /\ magic hdr = btcnet
    /\ length hdr <= maxMessagePayload
    /\ utf8_ValidString (command hdr) = true
    /\ makeEmptyMessage (command hdr) = inr empty
    /\ length hdr <= @MaxPayloadLength _ (methods empty) (value empty) pver
    /\ payload = firstn (Z.to_nat (length hdr)) (input r1)
    /\ len payload = length hdr
    /\ firstn 4 (DoubleSha256 payload) = checksum hdr
    /\ @BtcDecode _ (methods empty) (value empty) (NewBuffer payload) pver
       = (pr, m, None)
    /\ msg = @asMessage _ (methods empty) m.
Proof.
  unfold ReadMessage.
  destruct (readMessageHeader r) as [r1 [e|hdr]] eqn:Hh; [discriminate|].
  destruct (readMessageHeader_ok _ _ _ Hh) as (_ & _ & _ & _ & Hu & _).
  destruct (Z.ltb_spec maxMessagePayload (length hdr)) as [|Hl];
    [discriminate|].
  destruct (Z.eqb_spec (magic hdr) btcnet) as [Hm|]; [|discriminate].
  cbn [negb].
  destruct (utf8_ValidString (command hdr)) eqn:Hv; [|discriminate].
  cbn [negb].
  destruct (makeEmptyMessage (command hdr)) as [e|empty] eqn:He;
    [discriminate|].
  destruct (Z.ltb_spec (@MaxPayloadLength _ (methods empty) (value empty) pver)
              (length hdr)) as [|Hp]; [discriminate|].
  destruct ((make (length hdr) ;;; ReadFull (length hdr)) r1)
    as [r3 [e|b]] eqn:Hr; [discriminate|].
  destruct (bytes_Equal (firstn 4 (DoubleSha256 b)) (checksum hdr)) eqn:Hc;
    [|discriminate].
  cbn [negb].
  destruct (@BtcDecode _ (methods empty) (value empty) (NewBuffer b) pver)
    as [[pr m] [e|]] eqn:Hd; [discriminate|].
  intros H. injection H as _ <- <-.
  apply bind_inr in Hr. destruct Hr as (r4 & [] & Hk & Hr).
  unfold make in Hk. injection Hk as <-.
  apply ReadFull_ok in Hr; [|apply Hu]. cbn [input] in Hr.
  destruct Hr as (Hb & Hn & _).
  exists r1, hdr, empty, pr, m.
  repeat match goal with |- _ /\ _ => split end; auto.
  - rewrite Hb. unfold len. rewrite length_firstn.
    unfold is_uint32 in Hu. lia.
  - now apply bytes_Equal_eq.
Qed.

End MoreProperties.

(** ** The further theorems at work *)

Ltac counted := vm_compute; lia.

Lemma version_sendable :
  @sendable Reference.package 70001 (Example.version Example.nonce)
    Example.localhostBytes Example.localhostBytes.
Proof.
  split; [|split; [|split; [|split]]].
  - apply version_well_typed. unfold is_uint64, Example.nonce. lia.
  - evaluated.
  - apply localhost_wire.
  - apply localhost_wire.
  - evaluated.
Qed.

Lemma byteSent_sendable :
  @sendable Reference.package 70001 Example.byteSent
    Example.localhostBytes Example.localhostBytes.
Proof.
  split; [|split; [|split; [|split]]].
  - unfold well_typed, is_int32, is_uint64, is_int64. cbn. lia.
  - evaluated.
  - apply localhost_wire.
  - apply localhost_wire.
  - evaluated.
Qed.

Lemma Reference_frames_fit :
  2 * @maxNetAddressPayload Reference.package 70001 + 2041 <= maxMessagePayload.
Proof. evaluated. Qed.

(** Behind a header of the test network that declares three bytes, the next
    read starts at the fourth byte. *)
Lemma ReadMessage_frame_alignment_witness :
  input (fst (@ReadMessage Reference.package
                (NewBuffer (Example.header Example.testNet3 "version" 3
                              Example.zeros4
                            ++ [Byte.x01; Byte.x02; Byte.x03; Byte.x04;
                                Byte.x05]))
                70001 Example.mainNet))
  = [Byte.x04; Byte.x05].
Proof.
  refine (eq_trans
            (@ReadMessage_frame_alignment Reference.package
               _ 70001 Example.mainNet
               {| input := [Byte.x01; Byte.x02; Byte.x03; Byte.x04; Byte.x05];
                  reads := [4; 12; 4; 4];
                  allocs := [] |}
               {| magic := Example.testNet3;
                  command := "version";
                  length := 3;
                  checksum := Example.zeros4 |} _) _); evaluated.
Defined.

(** A stream of seven bytes. *)
Lemma ReadMessage_truncated_header_witness :
  exists r' e,
    @ReadMessage Reference.package
      (NewBuffer (le_split 4 Example.mainNet ++ bytes_of "ver"))
      70001 Example.mainNet = (r', inl e)
    /\ (e = EOF \/ e = ErrUnexpectedEOF)
    /\ (le_split 4 Example.mainNet ++ bytes_of "ver" = [] -> e = EOF)
    /\ input r' = []
    /\ allocs r' = [].
Proof.
  apply (@ReadMessage_truncated_header Reference.package
           (NewBuffer (le_split 4 Example.mainNet ++ bytes_of "ver"))
           70001 Example.mainNet).
  counted.
Defined.

(** A header that declares the 97 bytes of a version message, with three
    bytes behind it. *)
Lemma ReadMessage_truncated_payload_witness :
  @ReadMessage Reference.package
    (NewBuffer (Example.header Example.mainNet "version" 97 Example.zeros4
                ++ [Byte.x01; Byte.x02; Byte.x03]))
    70001 Example.mainNet
  = ({| input := []; reads := [4; 12; 4; 4; 97]; allocs := [97] |},
     inl ErrUnexpectedEOF).
Proof.
  refine (eq_trans
            (@ReadMessage_truncated_payload Reference.package
               _ 70001 Example.mainNet
               {| input := [Byte.x01; Byte.x02; Byte.x03];
                  reads := [4; 12; 4; 4];
                  allocs := [] |}
               {| magic := Example.mainNet;
                  command := "version";
                  length := 97;
                  checksum := Example.zeros4 |}
               (asMessage (@emptyMsgVersion Reference.package))
               _ _ _ _ _ _ _) _);
    try reflexivity; first [evaluated | counted].
Defined.

(** The header of a frame with three bytes of payload and two bytes behind
    it. *)
Lemma readMessageHeader_frame_witness :
  exists r',
    readMessageHeader
      (NewBuffer (frameBytes Example.mainNet "version" Example.zeros4
                    [Byte.x01; Byte.x02; Byte.x03]
                  ++ [Byte.x04; Byte.x05]))
    = (r', inr {| magic := Example.mainNet;
                  command := string_of (TrimRight0 (bytes_of "version"));
                  length := len [Byte.x01; Byte.x02; Byte.x03];
                  checksum := Example.zeros4 |})
    /\ input r' = [Byte.x01; Byte.x02; Byte.x03] ++ [Byte.x04; Byte.x05]
    /\ (last (bytes_of "version") Byte.x01 <> Byte.x00 ->
        string_of (TrimRight0 (bytes_of "version")) = "version"%string).
Proof.
  apply (readMessageHeader_frame Example.mainNet "version" Example.zeros4
           [Byte.x01; Byte.x02; Byte.x03] [Byte.x04; Byte.x05]
           (NewBuffer _));
    [evaluated | evaluated | evaluated | evaluated | reflexivity].
Defined.

(** The fields of the header of the main network for "version". *)
Lemma readMessageHeader_fields_witness :
  let r := NewBuffer (Example.header Example.mainNet "version" 3
                        Example.zeros4
                      ++ [Byte.x01; Byte.x02; Byte.x03]) in
  let hdr := {| magic := Example.mainNet;
                command := "version";
                length := 3;
                checksum := Example.zeros4 |} in
  let b := firstn 24 (input r) in
  hdr = {| magic := le_combine (firstn 4 b);
           command := string_of (TrimRight0 (firstn 12 (skipn 4 b)));
           length := le_combine (firstn 4 (skipn 16 b));
           checksum := skipn 20 b |}
  /\ is_uint32 (magic hdr)
  /\ is_uint32 (length hdr)
  /\ strlen (command hdr) <= 12
  /\ last (bytes_of (command hdr)) Byte.x01 <> Byte.x00
  /\ len (checksum hdr) = 4.
Proof.
  intros r hdr.
  refine (readMessageHeader_fields r
            {| input := [Byte.x01; Byte.x02; Byte.x03];
               reads := [4; 12; 4; 4];
               allocs := [] |} hdr _).
  evaluated.
Defined.

(** The version message of the scenario, written and read back. *)
Lemma WriteMessage_ReadMessage_version_witness :
  exists w,
    @WriteMessage Reference.package _ _ emptyBuffer
      (Example.version Example.nonce) 70001 Example.mainNet = (w, inr tt)
    /\ forall r rest, input r = output w ++ rest ->
         exists r',
           @ReadMessage Reference.package r 70001 Example.mainNet =
             (r', inr (asMessage (toSeconds (Example.version Example.nonce)),
                       versionBytes (Example.version Example.nonce)
                         Example.localhostBytes Example.localhostBytes))
           /\ input r' = rest.
Proof.
  apply (@WriteMessage_ReadMessage_version Reference.package 70001
           Example.mainNet (Example.version Example.nonce)
           Example.localhostBytes Example.localhostBytes).
  - evaluated.
  - exact version_sendable.
  - exact Reference_frames_fit.
Defined.

(** A frame of the test network with three bytes of payload, then the
    version message of the scenario for the main network, then one byte. *)
Lemma ReadMessage_resumes_after_other_network_witness :
  exists r1 r2,
    @ReadMessage Reference.package
      (NewBuffer (frameBytes Example.testNet3 "version" Example.zeros4
                    [Byte.x01; Byte.x02; Byte.x03]
                  ++ versionFrame Example.mainNet
                       (Example.version Example.nonce)
                       Example.localhostBytes Example.localhostBytes
                  ++ [Byte.x09]))
      70001 Example.mainNet
    = (r1, inl (MessageError "ReadMessage"
                  (DescOtherNetwork Example.testNet3)))
    /\ @ReadMessage Reference.package r1 70001 Example.mainNet
       = (r2, inr (asMessage (toSeconds (Example.version Example.nonce)),
                   versionBytes (Example.version Example.nonce)
                     Example.localhostBytes Example.localhostBytes))
    /\ input r2 = [Byte.x09].
Proof.
  apply (@ReadMessage_resumes_after_other_network Reference.package
           (NewBuffer _) 70001 Example.mainNet Example.testNet3 "version"
           Example.zeros4 [Byte.x01; Byte.x02; Byte.x03]
           (Example.version Example.nonce)
           Example.localhostBytes Example.localhostBytes [Byte.x09]).
  - evaluated.
  - evaluated.
  - evaluated.
  - evaluated.
  - evaluated.
  - evaluated.
  - exact version_sendable.
  - exact Reference_frames_fit.
  - reflexivity.
Defined.

(** Two version messages written one after the other and read back. *)
Lemma WriteMessage_twice_ReadMessage_twice_witness :
  exists w1 w2 r1 r2,
    @WriteMessage Reference.package _ _ emptyBuffer
      (Example.version Example.nonce) 70001 Example.mainNet = (w1, inr tt)
    /\ @WriteMessage Reference.package _ _ w1 Example.byteSent 70001
         Example.mainNet = (w2, inr tt)
    /\ @ReadMessage Reference.package (NewBuffer (output w2)) 70001
         Example.mainNet
       = (r1, inr (asMessage (toSeconds (Example.version Example.nonce)),
                   versionBytes (Example.version Example.nonce)
                     Example.localhostBytes Example.localhostBytes))
    /\ @ReadMessage Reference.package r1 70001 Example.mainNet
       = (r2, inr (asMessage (toSeconds Example.byteSent),
                   versionBytes Example.byteSent
                     Example.localhostBytes Example.localhostBytes))
    /\ input r2 = [].
Proof.
  apply (@WriteMessage_twice_ReadMessage_twice Reference.package 70001
           Example.mainNet (Example.version Example.nonce) Example.byteSent
           Example.localhostBytes Example.localhostBytes
           Example.localhostBytes Example.localhostBytes).
  - evaluated.
  - exact version_sendable.
  - exact byteSent_sendable.
  - exact Reference_frames_fit.
Defined.

(** What [NewMsgVersion] makes of the values of the scenario. *)
Lemma NewMsgVersion_roundtrip_witness :
  let msg :=
    @NewMsgVersion Reference.package 70001 (mkTime 1400000000 500000000)
      Example.localhost Example.localhost Example.nonce "/test:0.0.1/"
      123456 in
  let payload :=
    versionBytes msg Example.localhostBytes Example.localhostBytes in
  Services msg = 0 /\ AddrMe msg = Example.localhost
  /\ AddrYou msg = Example.localhost
  /\ Timestamp msg = mkTime 1400000000 0
  /\ @MsgVersion_BtcEncode Reference.package msg emptyBuffer 70001 =
       ({| output := payload; room := None |}, inr tt)
  /\ (forall into, exists r',
        @MsgVersion_BtcDecode Reference.package into (NewBuffer payload) 70001
        = (r', msg, None)
        /\ input r' = []).
Proof.
  apply (@NewMsgVersion_roundtrip Reference.package 70001
           (mkTime 1400000000 500000000) Example.localhost Example.localhost
           Example.nonce "/test:0.0.1/" 123456 70001
           Example.localhostBytes Example.localhostBytes).
  - evaluated.
  - evaluated.
  - evaluated.
  - evaluated.
  - apply localhost_wire.
  - apply localhost_wire.
Defined.

(** A message with the services ff0000ffff keeps the first of them when
    another is added, and is not changed by adding the first again. *)
Lemma AddService_only_adds_witness :
  @HasService Reference.package
    (AddService Example.byteSent (2 ^ 40)) 1 = true
  /\ Services (@AddService Reference.package Example.byteSent 1)
     = Services Example.byteSent
  /\ is_uint64 (Services (@AddService Reference.package Example.byteSent
                            (2 ^ 40))).
Proof.
  split; [|split].
  - refine (proj1 (@AddService_only_adds Reference.package
                     Example.byteSent 1 (2 ^ 40)) _).
    evaluated.
  - refine (proj1 (proj2 (proj2 (proj2 (proj2 (proj2
              (@AddService_only_adds Reference.package
                 Example.byteSent 1 1)))))) _).
    evaluated.
  - refine (proj2 (proj2 (proj2 (proj2 (proj2 (proj2
              (@AddService_only_adds Reference.package
                 Example.byteSent (2 ^ 40) 1)))))) _ _); evaluated.
Defined.

(** The message of the scenario has no services: it has none but the
    empty one. *)
Lemma HasService_combined_witness :
  @HasService Reference.package (Example.version Example.nonce) 1 = true
  <-> 1 = 0.
Proof.
  refine (proj2 (proj2 (@HasService_combined Reference.package
                          (Example.version Example.nonce) 1 1)) _).
  reflexivity.
Defined.

(** The version message of the scenario, decoded. *)
Lemma MsgVersion_BtcDecode_invariant_witness :
  strlen (UserAgent (Example.versionDecoded Example.nonce)) <= MaxUserAgentLen
  /\ well_typed (Example.versionDecoded Example.nonce)
  /\ nanos (Timestamp (Example.versionDecoded Example.nonce)) = 0.
Proof.
  apply (@MsgVersion_BtcDecode_invariant Reference.package
           emptyMsgVersion (NewBuffer (Example.payload Example.nonce)) 70001
           {| input := [];
              reads := [4; 8; 8; 8; 16; 2; 8; 16; 2; 8; 1; 12; 4];
              allocs := [12] |}
           (Example.versionDecoded Example.nonce)).
  reflexivity.
Defined.

(** Writing the version message of the scenario succeeds. *)
Lemma WriteMessage_success_witness :
  let msg := Example.version Example.nonce in
  let enc := @BtcEncode _ (@MsgVersion_Message Reference.package) msg
               emptyBuffer 70001 in
  let payload := output (fst enc) in
  let frame :=
    frameBytes Example.mainNet
      (@Command _ (@MsgVersion_Message Reference.package) msg)
      (copyInto 4 (firstn 4 (@DoubleSha256 Reference.package payload)))
      payload in
  snd enc = inr tt
  /\ strlen (@Command _ (@MsgVersion_Message Reference.package) msg) <= 12
  /\ len payload <= 33554432
  /\ len payload
     <= @MaxPayloadLength _ (@MsgVersion_Message Reference.package) msg 70001
  /\ output (fst (@WriteMessage Reference.package _ _ emptyBuffer msg 70001
                    Example.mainNet)) = output emptyBuffer ++ frame
  /\ len frame = 24 + len payload.
Proof.
  refine (@WriteMessage_success Reference.package _ _ emptyBuffer
            (Example.version Example.nonce) 70001 Example.mainNet _).
  vm_compute. reflexivity.
Defined.

(** The buffers made on the stream for a header of the test network that
    declares three bytes: the one of [discardInput] and the one of its last
    chunk. *)
Lemma ReadMessage_own_allocations_witness :
  exists bufs,
    allocs (fst (@ReadMessage Reference.package
                   (NewBuffer (Example.header Example.testNet3 "version" 3
                                 Example.zeros4
                               ++ [Byte.x01; Byte.x02; Byte.x03]))
                   70001 Example.mainNet))
    = [] ++ bufs
    /\ (List.length bufs <= 2)%nat
    /\ Forall (fun a =>
                 0 <= a <= 10240
                 \/ (a = 3
                     /\ 3 <= maxMessagePayload
                     /\ exists msg,
                          @makeEmptyMessage Reference.package "version"
                          = inr msg
                          /\ 3 <= @MaxPayloadLength _ (methods msg)
                                    (value msg) 70001))
              bufs.
Proof.
  apply (@ReadMessage_own_allocations Reference.package
           (NewBuffer _) 70001 Example.mainNet
           {| input := [Byte.x01; Byte.x02; Byte.x03];
              reads := [4; 12; 4; 4];
              allocs := [] |}
           {| magic := Example.testNet3;
              command := "version";
              length := 3;
              checksum := Example.zeros4 |}).
  evaluated.
Defined.

(** A stream that ends after the protocol version and three more bytes. *)
Lemma MsgVersion_BtcDecode_truncated_witness :
  exists r' m' e,
    @MsgVersion_BtcDecode Reference.package
      (Example.version Example.nonce)
      (NewBuffer (le_split 4 70001 ++ [Byte.x01; Byte.x02; Byte.x03])) 70001
    = (r', m', Some e)
    /\ (e = EOF \/ e = ErrUnexpectedEOF)
    /\ input r' = []
    /\ Timestamp m' = Timestamp (Example.version Example.nonce)
    /\ AddrYou m' = AddrYou (Example.version Example.nonce)
    /\ AddrMe m' = AddrMe (Example.version Example.nonce)
    /\ Nonce m' = Nonce (Example.version Example.nonce)
    /\ UserAgent m' = UserAgent (Example.version Example.nonce)
    /\ LastBlock m' = LastBlock (Example.version Example.nonce).
Proof.
  apply (@MsgVersion_BtcDecode_truncated Reference.package
           (Example.version Example.nonce) (NewBuffer _) 70001).
  counted.
Defined.

(** What was checked when the frame of the scenario's version message was
    read. *)
Lemma ReadMessage_success_witness :
  let payload :=
    versionBytes (Example.version Example.nonce) Example.localhostBytes
      Example.localhostBytes in
  exists r1 hdr empty pr m,
    readMessageHeader
      (NewBuffer (versionFrame Example.mainNet (Example.version Example.nonce)
                    Example.localhostBytes Example.localhostBytes))
    = (r1, inr hdr)
    /\ magic hdr = Example.mainNet
    /\ length hdr <= maxMessagePayload
    /\ utf8_ValidString (command hdr) = true
    /\ @makeEmptyMessage Reference.package (command hdr) = inr empty
    /\ length hdr <= @MaxPayloadLength _ (methods empty) (value empty) 70001
    /\ payload = firstn (Z.to_nat (length hdr)) (input r1)
    /\ len payload = length hdr
    /\ firstn 4 (@DoubleSha256 Reference.package payload) = checksum hdr
    /\ @BtcDecode _ (methods empty) (value empty) (NewBuffer payload) 70001
       = (pr, m, None)
    /\ asMessage (toSeconds (Example.version Example.nonce))
       = @asMessage _ (methods empty) m.
Proof.
  intros payload. subst payload.
  destruct (@ReadMessage_versionFrame Reference.package
              (NewBuffer (versionFrame Example.mainNet
                            (Example.version Example.nonce)
                            Example.localhostBytes Example.localhostBytes))
              70001 Example.mainNet (Example.version Example.nonce)
              Example.localhostBytes Example.localhostBytes [])
    as (r' & E & _).
  - evaluated.
  - exact version_sendable.
  - exact Reference_frames_fit.
  - cbn [NewBuffer input]. symmetry. apply app_nil_r.
  - exact (@ReadMessage_success Reference.package _ 70001 Example.mainNet
             r' _ _ E).
Defined.
